(** * Meowstik: the URL fetch-and-package gateway (src/app.py)

    A shallow embedding of the Flask handlers [home] and [process_url].
    Python values that travel through JSON are modelled by [pyval];
    dictionaries are finite maps with string keys.  The outbound HTTP
    client, the wall clock and the standard output are the handler's
    environment: the client and the clock are read from a [World], and
    every outbound call and every print is recorded in a trace. *)

From Stdlib Require Import ZArith String List DecimalString.
From Stdlib Require Import Floats.SpecFloat.
From stdpp Require Import base option strings list gmap fin_maps.

Local Open Scope Z_scope.
Local Open Scope string_scope.
Local Open Scope list_scope.

(** ** Python values

    What [request.json] delivers and what [jsonify] accepts:
    [None], booleans, integers, floats, strings, lists and dicts with
    string keys. *)

#[warnings="-register-all"] Inductive pyval : Type :=
  | PNone
  | PBool (b : bool)
  | PInt (z : Z)
  | PFloat (f : spec_float)
  | PStr (s : string)
  | PList (l : list pyval)
  | PDict (d : gmap string pyval).

(** Python's truth value testing, as used by [not url]. *)
Definition truthy (v : pyval) : bool :=
  match v with
  | PNone => false
  | PBool b => b
  | PInt z => negb (Z.eqb z 0)
  | PFloat f => match f with S754_zero _ => false | _ => true end
  | PStr s => negb (Nat.eqb (String.length s) 0)
  | PList l => negb (Nat.eqb (List.length l) 0)
  | PDict d => negb (Nat.eqb (size d) 0)
  end.

(** [type(v).__name__], which appears in attribute errors. *)
Definition type_name (v : pyval) : string :=
  match v with
  | PNone => "NoneType"
  | PBool _ => "bool"
  | PInt _ => "int"
  | PFloat _ => "float"
  | PStr _ => "str"
  | PList _ => "list"
  | PDict _ => "dict"
  end.

(** Subscripting a value that is a dict, and following a path of keys
    through nested dicts. *)
Definition field (k : string) (v : pyval) : option pyval :=
  match v with
  | PDict d => d !! k
  | _ => None
  end.

Fixpoint path (ks : list string) (v : pyval) : option pyval :=
  match ks with
  | [] => Some v
  | k :: ks' => match field k v with
                | Some v' => path ks' v'
                | None => None
                end
  end.

(** Python's [dict(...)] constructor and dict displays: the items are
    stored from left to right, a later item replacing an earlier one
    with the same key. *)
Definition dict {V : Type} (items : list (string * V)) : gmap string V :=
  fold_left (λ d kv, <[kv.1 := kv.2]> d) items ∅.

(** ** The environment *)

(** What a [requests.Response] offers.  The handler reads
    [status_code], [headers] and [text]; [resp_url] is the final URL
    of the exchange, after any redirect, which the handler never
    reads.  [headers] is the sequence of (name, value) items that the
    response's header mapping hands to [dict]. *)
Record Response : Type := mkResponse {
  status_code : Z;
  headers : list (string * string);
  text : string;
  resp_url : string
}.

(** The failures of [requests.exceptions]: all of them are instances
    of [RequestException].  A fetch that times out is a [Timeout], a
    refused connection or a name that does not resolve a
    [ConnectionError], a failed TLS handshake an [SSLError]. *)
Inductive request_failure : Type :=
  | Timeout
  | ConnectionError
  | SSLError
  | InvalidURL
  | OtherRequestFailure.

(** Python exceptions, by the classes the handler can meet, each with
    the text that [str(e)] gives. *)
Inductive exn : Type :=
  | AttributeError (msg : string)
  | RequestException (kind : request_failure) (msg : string)
  | OtherError (msg : string).

Definition str (e : exn) : string :=
  match e with
  | AttributeError msg => msg
  | RequestException _ msg => msg
  | OtherError msg => msg
  end.

Definition is_RequestException (e : exn) : bool :=
  match e with
  | RequestException _ _ => true
  | _ => false
  end.

Inductive result (A : Type) : Type :=
  | Ok (a : A)
  | Raise (e : exn).
Arguments Ok {A} a.
Arguments Raise {A} e.

(** The world outside the handler: what an outbound GET of a URL with
    a timeout comes back with, and what the clock reads in ISO format. *)
Record World : Type := mkWorld {
  http_get : pyval → Z → result Response;
  now_isoformat : string
}.

(** What the handler does to the world. *)
Inductive event : Type :=
  | HttpGet (url : pyval) (timeout : Z)
  | Stdout (prefix : string) (v : pyval).

(** ** Computations: exceptions and a trace of events *)

Definition M (A : Type) : Type := list event → result A * list event.

#[global] Instance M_ret : MRet M := λ A a tr, (Ok a, tr).

#[global] Instance M_bind : MBind M := λ A B f m tr,
  match m tr with
  | (Ok a, tr') => f a tr'
  | (Raise e, tr') => (Raise e, tr')
  end.

Definition raise {A : Type} (e : exn) : M A := λ tr, (Raise e, tr).

Definition emit (ev : event) : M unit := λ tr, (Ok tt, tr ++ [ev]).

(** [try: body except: handler]; a handler that answers [None] does
    not match the exception, which then propagates. *)
Definition try_except {A : Type} (body : M A) (handler : exn → option (M A)) : M A :=
  λ tr,
    match body tr with
    | (Ok a, tr') => (Ok a, tr')
    | (Raise e, tr') =>
        match handler e with
        | Some h => h tr'
        | None => (Raise e, tr')
        end
    end.

(** Running a handler on a fresh request. *)
Definition run {A : Type} (m : M A) : result A * list event := m [].

(** ** Library calls *)

(** [data.get(key, default)]: defined on dicts only. *)
Definition get (data : pyval) (key : string) (default : pyval) : M pyval :=
  match data with
  | PDict d => mret (match d !! key with Some v => v | None => default end)
  | _ => raise (AttributeError ("'" +:+ type_name data +:+ "' object has no attribute 'get'"))
  end.

(** [requests.get(url, timeout=t)]. *)
Definition requests_get (w : World) (url : pyval) (timeout : Z) : M Response :=
  λ tr, (http_get w url timeout, tr ++ [HttpGet url timeout]).

(** [print(f"{prefix}{v}")]. *)
Definition print (prefix : string) (v : pyval) : M unit := emit (Stdout prefix v).

(** A Flask response: the value handed to [jsonify] and the status. *)
Record flask_response : Type := mkFlask {
  body : pyval;
  status : Z
}.

Definition jsonify (v : pyval) : pyval := v.

(** ** The handlers of src/app.py *)

Definition home : string := "MPC Server is running!".

(** The value bound to the local variable [http_response_package]. *)
Definition http_response_package (url : pyval) (response : Response) : pyval :=
  PDict (dict [("status_code", PInt (status_code response));
               ("headers", PDict (PStr <$> dict (headers response)));
               ("content", PStr (text response));
               ("url", url)]).

(** The value bound to the local variable [callback_payload]. *)
Definition callback_payload (w : World) (original_prompt : pyval) (package : pyval) : pyval :=
  PDict (dict [("automated_return", PBool true);
               ("original_prompt", original_prompt);
               ("timestamp", PStr (now_isoformat w));
               ("status_metadata", PStr "Content gathering complete.");
               ("result_package",
                 PDict (dict [("dataType", PStr "http_response");
                              ("data", package)]))]).

Definition process_url (w : World) (data : pyval) : M flask_response :=
  url ← get data "url" PNone;
  data_type ← get data "dataType" (PStr "http_response");
  original_prompt ← get data "originalPrompt" PNone;
  if negb (truthy url) then
    mret (mkFlask (jsonify (PDict (dict [("error", PStr "URL is required")]))) 400)
  else
    try_except
      (response ← requests_get w url 30;
       let package := http_response_package url response in
       let payload := callback_payload w original_prompt package in
       print "Simulating LLM callback payload: " (jsonify payload);;
       mret (mkFlask
               (jsonify (PDict (dict [("message", PStr "URL processing initiated (simulated callback)");
                                      ("payload_preview", payload)])))
               200))
      (λ e, match e with
            | RequestException _ _ =>
                Some (mret (mkFlask (jsonify (PDict (dict [("error", PStr (str e))]))) 500))
            | _ => None
            end).

(** What [data.get('url')] and [data.get('originalPrompt')] read from
    a request body that is a JSON object. *)
Definition url_of (d : gmap string pyval) : pyval :=
  match d !! "url" with Some v => v | None => PNone end.

Definition prompt_of (d : gmap string pyval) : pyval :=
  match d !! "originalPrompt" with Some v => v | None => PNone end.

(** * The HTTP client: what requests and urllib3 hand to the handler

    Two pieces of the client libraries decide what [process_url]
    observes of a fetch: the text of the exception raised when the
    transport fails, and the header mapping of a response.  Both are
    transcribed from requests 2.32 and urllib3 1.26. *)

Module Client.

(** ** Transport failures *)

(** What exhausts urllib3's retries (requests allows none): a connect
    timeout (ConnectTimeoutError), a connection that cannot be made,
    refused or to a name that does not resolve (NewConnectionError),
    a failed TLS handshake or certificate check (SSLError). *)
Inductive retry_cause : Type :=
  | ConnectTimedOut
  | ConnectionFailed
  | TlsFailed.

(** The urllib3 exception of a failed transport.  ReadTimeoutError,
    when the server does not send in time, carries the pool and a
    message: "Read timed out. (read timeout=30)" while the response
    is awaited (urllib3/connectionpool.py, _raise_timeout), "Read
    timed out." while the body is read (urllib3/response.py,
    _error_catcher).  MaxRetryError, for everything that keeps the
    request from being sent, carries the pool, the url and the repr
    of the underlying error. *)
Inductive transport_failure : Type :=
  | ReadTimeoutError (reading_body : bool) (pool message : string)
  | MaxRetryError (cause : retry_cause) (pool url reason : string).

(** [str(e)] of the urllib3 exception (urllib3/exceptions.py,
    PoolError.__init__ and MaxRetryError.__init__). *)
Definition description (f : transport_failure) : string :=
  match f with
  | ReadTimeoutError _ pool message => pool +:+ ": " +:+ message
  | MaxRetryError _ pool url reason =>
      pool +:+ ": " +:+ ("Max retries exceeded with url: " +:+ url
                         +:+ " (Caused by " +:+ reason +:+ ")")
  end.

(** The class of the requests exception that wraps it
    (requests/adapters.py, send; requests/models.py, iter_content):
    ReadTimeout and ConnectTimeout are Timeouts. *)
Definition failure_class (f : transport_failure) : request_failure :=
  match f with
  | ReadTimeoutError false _ _ => Timeout
  | ReadTimeoutError true _ _ => ConnectionError
  | MaxRetryError ConnectTimedOut _ _ _ => Timeout
  | MaxRetryError ConnectionFailed _ _ _ => ConnectionError
  | MaxRetryError TlsFailed _ _ _ => SSLError
  end.

(** What [requests.get] raises: the urllib3 exception is the single
    argument of the requests exception, so that [str] of the latter
    is [str] of the former. *)
Definition raised (f : transport_failure) : exn :=
  RequestException (failure_class f) (description f).

(** ** Header mappings *)

(** An OrderedDict with string keys: [od[k]] ([None] is KeyError) and
    [od[k] = v], which keeps the place of a key that is present and
    appends a new one. *)
Fixpoint od_get {V : Type} (k : string) (od : list (string * V)) : option V :=
  match od with
  | [] => None
  | (k', v) :: od' => if decide (k' = k) then Some v else od_get k od'
  end.

Fixpoint od_set {V : Type} (k : string) (v : V) (od : list (string * V))
    : list (string * V) :=
  match od with
  | [] => [(k, v)]
  | (k', v') :: od' =>
      if decide (k' = k) then (k, v) :: od' else (k', v') :: od_set k v od'
  end.

(** [sep.join(l)]. *)
Fixpoint join (sep : string) (l : list string) : string :=
  match l with
  | [] => ""
  | [x] => x
  | x :: l' => x +:+ sep +:+ join sep l'
  end.

Section Headers.
(** [str.lower]. *)
Variable lower : string → string.

(** urllib3/_collections.py, HTTPHeaderDict: [_container] maps the
    lowered name to the list [key, val, val, ...]. *)
Definition add (c : list (string * list string)) (key val : string)
    : list (string * list string) :=
  match od_get (lower key) c with
  | Some vals => od_set (lower key) (vals ++ [val]) c
  | None => od_set (lower key) [key; val] c
  end.

(** [HTTPHeaderDict(r.msg.items())]: the header fields of the
    response as received, added one by one. *)
Definition HTTPHeaderDict (fields : list (string * string)) : list (string * list string) :=
  fold_left (λ c kv, add c kv.1 kv.2) fields [].

(** [__iter__]: the name of each entry as first spelled. *)
Definition HTTPHeaderDict_iter (c : list (string * list string)) : list string :=
  (λ entry, default "" (head entry.2)) <$> c.

(** [__getitem__]: the values of the entry, joined. *)
Definition HTTPHeaderDict_getitem (c : list (string * list string)) (key : string)
    : option string :=
  vals ← od_get (lower key) c; Some (join ", " (tail vals)).

(** requests/structures.py, [CaseInsensitiveDict(data)]: [_store]
    maps the lowered name to (name, value); the constructor runs
    [for key in data: self[key] = data[key]]. *)
Definition CaseInsensitiveDict (data : list (string * list string))
    : option (list (string * (string * string))) :=
  fold_left
    (λ store key,
       st ← store;
       v ← HTTPHeaderDict_getitem data key;
       Some (od_set (lower key) (key, v) st))
    (HTTPHeaderDict_iter data) (Some []).

Definition CaseInsensitiveDict_iter (store : list (string * (string * string)))
    : list string :=
  (λ entry, entry.2.1) <$> store.

Definition CaseInsensitiveDict_getitem (store : list (string * (string * string)))
    (key : string) : option string :=
  snd <$> od_get (lower key) store.

(** The shape of a header container: every entry is [key, val, ...]
    under the lowered key, and no lowered key occurs twice. *)
Definition container_wf (c : list (string * list string)) : Prop :=
  NoDup c.*1
  ∧ ∀ kl vals, (kl, vals) ∈ c → ∃ key rest, vals = key :: rest ∧ lower key = kl.

(** The items that [dict(response.headers)] reads, key by key, when
    the response was received with the header fields [fields]. *)
Definition response_headers (fields : list (string * string))
    : option (list (string * string)) :=
  store ← CaseInsensitiveDict (HTTPHeaderDict fields);
  mapM (λ key, v ← CaseInsensitiveDict_getitem store key; Some (key, v))
       (CaseInsensitiveDict_iter store).
End Headers.

(** [str.lower] on names written in ASCII. *)
Definition lower_char (c : Ascii.ascii) : Ascii.ascii :=
  let n := Ascii.N_of_ascii c in
  if ((65 <=? n) && (n <=? 90))%N then Ascii.ascii_of_N (n + 32) else c.

Fixpoint ascii_lower (s : string) : string :=
  match s with
  | EmptyString => EmptyString
  | String c s' => String (lower_char c) (ascii_lower s')
  end.

End Client.

(** ** Concrete requests and worlds used in the examples below *)

(** An upstream that answers 200 with a JSON body after a redirect. *)
Definition world_ok : World :=
  mkWorld
    (λ _ _, Ok (mkResponse 200 [("Content-Type", "application/json")]
                           "{x:1}" "http://example.test/moved"))
    "2026-01-01T00:00:00".

(** The header fields of an upstream answer that sends X-Trace
    twice. *)
Definition fields_404 : list (string * string) :=
  [("X-Trace", "a"); ("Server", "stub"); ("X-Trace", "b")].

(** An upstream that answers 404 with those fields: the client hands
    over one X-Trace item, with both values joined. *)
Definition world_404 : World :=
  mkWorld
    (λ _ _, Ok (mkResponse 404 [("X-Trace", "a, b"); ("Server", "stub")]
                           "not found" "http://example.test/missing"))
    "2026-01-01T00:00:00".

(** An upstream that does not answer in time. *)
Definition world_down : World :=
  mkWorld
    (λ _ _, Raise (Client.raised
                     (Client.ReadTimeoutError false
                        "HTTPConnectionPool(host='example.test', port=80)"
                        "Read timed out. (read timeout=30)")))
    "2026-01-01T00:00:00".

Definition request_cats : gmap string pyval :=
  dict [("url", PStr "http://example.test/ok"); ("originalPrompt", PStr "find cats")].

Definition request_bare : gmap string pyval :=
  dict [("url", PStr "http://example.test/ok")].

Definition request_no_url : gmap string pyval :=
  dict [("dataType", PStr "pdf"); ("originalPrompt", PStr "find cats")].

Definition request_url_empty_list : gmap string pyval :=
  dict [("url", PList []); ("originalPrompt", PStr "find cats")].

Definition request_url_number : gmap string pyval :=
  dict [("url", PInt 5)].

(** An HTTP client that fails outside [requests.exceptions]. *)
Definition world_broken : World :=
  mkWorld (λ _ _, Raise (OtherError "unexpected failure")) "2026-01-01T00:00:00".

Definition request_cats_verbose : gmap string pyval :=
  dict [("url", PStr "http://example.test/ok"); ("originalPrompt", PStr "find cats");
        ("dataType", PStr "pdf"); ("retries", PInt 3)].

(** ** Reading a trace *)

(** The outbound GETs of a trace, in order, each with its timeout. *)
Definition fetches (tr : list event) : list (pyval * Z) :=
  omap (λ ev, match ev with HttpGet url timeout => Some (url, timeout) | _ => None end) tr.

(** What a trace wrote to the standard output, in order. *)
Definition printed (tr : list event) : list (string * pyval) :=
  omap (λ ev, match ev with Stdout prefix v => Some (prefix, v) | _ => None end) tr.

(** * Scripts

    A run of a script: what it did to the outside, in order, and how
    it ended, with an exception or a value.  An exception ends the
    run where it is raised. *)

Definition Script (Ev Err A : Type) : Type := list Ev * (Err + A).

#[global] Instance Script_ret {Ev Err : Type} : MRet (Script Ev Err) :=
  λ A a, ([], inr a).

#[global] Instance Script_bind {Ev Err : Type} : MBind (Script Ev Err) :=
  λ A B f m,
    match m with
    | (out, inl e) => (out, inl e)
    | (out, inr a) => let '(out', r) := f a in (out ++ out', r)
    end.

(** [for x in l: f(x)]. *)
Fixpoint for_each {Ev Err A : Type} (l : list A) (f : A → Script Ev Err unit)
    : Script Ev Err unit :=
  match l with
  | [] => mret tt
  | x :: l' => f x;; for_each l' f
  end.

(** Every event of a run satisfies [P]. *)
Definition all_out {Ev Err A : Type} (P : Ev → Prop) (m : Script Ev Err A) : Prop :=
  Forall P m.1.

(** * The log analysis job (src/scripts/analyze_logs.py)

    The job prints and may raise; it has no other effect.  A run is
    the list of lines it printed, each the fixed text of an f-string
    and the value formatted after it, and how it ended. *)

Module AnalyzeLogs.

(** The exceptions of subscripting [v[key]] with a string key: the
    key is missing from a dict, or [v] (of the named type) is not a
    dict. *)
Inductive error : Type :=
  | KeyError (key : string)
  | TypeError (type : string).

Abbreviation Job := (Script (string * pyval) error).

Definition raise {A : Type} (e : error) : Job A := ([], inl e).

Definition print (prefix : string) (v : pyval) : Job unit := ([(prefix, v)], inr tt).

(** [v[key]]. *)
Definition getitem (v : pyval) (key : string) : Job pyval :=
  match v with
  | PDict d => match d !! key with
               | Some x => mret x
               | None => raise (KeyError key)
               end
  | _ => raise (TypeError (type_name v))
  end.

(** [d.get(key, default)] on a dict. *)
Definition dict_get (d : gmap string pyval) (key : string) (default : pyval) : pyval :=
  match d !! key with Some v => v | None => default end.

(** [v == "literal"]: only a string equals a string. *)
Definition eq_str (v : pyval) (literal : string) : bool :=
  match v with
  | PStr s => String.eqb s literal
  | _ => false
  end.

(** The body of the loop, lines 46 to 61, as a function of the value
    bound to [analysis] (the source binds the placeholder [{}], where
    the reply of the language model is to be parsed). *)
Definition step (analysis : gmap string pyval) : Job unit :=
  if eq_str (dict_get analysis "classification" PNone) "correction" then
    rule ← getitem (PDict analysis) "payload";
    print "Found a correction. New rule: " rule
  else if eq_str (dict_get analysis "classification" PNone) "bug" then
    payload ← getitem (PDict analysis) "payload";
    title ← getitem payload "title";
    payload' ← getitem (PDict analysis) "payload";
    issue_body ← getitem payload' "body";
    print "Found a bug. Creating issue: " title
  else
    let summary := dict_get analysis "payload" (PStr "No action taken.") in
    print "Analyzed interaction: " (dict_get analysis "classification" PNone).

(** The loop over [recent_logs], with the placeholder analysis. *)
Definition analyze_logs_of (recent_logs : list pyval) : Job unit :=
  for_each recent_logs (λ log, let analysis := ∅ in step analysis).

(** The function as written: the placeholder for the database query
    binds [recent_logs] to the empty list. *)
Definition analyze_interaction_logs : Job unit :=
  let recent_logs := [] in
  analyze_logs_of recent_logs.

Definition analysis_bug_without_body : gmap string pyval :=
  dict [("classification", PStr "bug");
        ("payload", PDict (dict [("title", PStr "Crash on empty url")]))].

Definition analysis_correction : gmap string pyval :=
  dict [("classification", PStr "correction"); ("payload", PStr "Use tool X")].

Definition analysis_praise : gmap string pyval :=
  dict [("classification", PStr "praise"); ("payload", PStr "Well done")].

End AnalyzeLogs.

(** * The icon generator (src/scripts/generate-icons.py)

    An image is modelled by the Pillow calls that made it, the file
    system by what its calls answer.  Sizes are non-negative, as
    [Image.new] demands. *)

Module GenerateIcons.

Definition TAILWIND_BLUE_500 : list Z := [59; 130; 246].
Definition WHITE : list Z := [255; 255; 255].

(** [Image.new(mode, size, color)], then the shapes drawn on it: each
    ellipse with its bounding box [x0, y0, x1, y1] and its fill. *)
Record image : Type := mkImage {
  mode : string;
  size : Z * Z;
  color : list Z;
  ellipses : list (list Z * list Z)
}.

Definition Image_new (mode : string) (size : Z * Z) (color : list Z) : image :=
  mkImage mode size color [].

Definition ellipse (img : image) (xy : list Z) (fill : list Z) : image :=
  mkImage (mode img) (size img) (color img) (ellipses img ++ [(xy, fill)]).

(** What the script does to the outside. *)
Inductive call : Type :=
  | Makedirs (path : string)
  | SaveImage (path : string) (img : image)
  | Echo (line : string).

(** The machine the script runs on: whether Pillow can be imported,
    the repository root found from the script's own location, and
    the error, if any, that creating a directory or saving at a path
    raises (the text of the exception). *)
Record Host : Type := mkHost {
  pil_installed : bool;
  repo_root : string;
  makedirs_error : string → option string;
  save_error : string → option string
}.

Abbreviation Run := (Script call string).

Definition print (line : string) : Run unit := ([Echo line], inr tt).

(** [os.makedirs(path, exist_ok=True)]. *)
Definition makedirs (h : Host) (path : string) : Run unit :=
  ([Makedirs path],
   match makedirs_error h path with Some e => inl e | None => inr tt end).

(** [img.save(path)]. *)
Definition save (h : Host) (img : image) (path : string) : Run unit :=
  ([SaveImage path img],
   match save_error h path with Some e => inl e | None => inr tt end).

Fixpoint ends_with_sep (s : string) : bool :=
  match s with
  | EmptyString => false
  | String _ s' => (String.eqb s "/" || ends_with_sep s')%bool
  end.

(** [os.path.join(a, b)] of posixpath. *)
Definition os_path_join (a b : string) : string :=
  if String.prefix "/" b then b
  else if (String.eqb a "" || ends_with_sep a)%bool then a +:+ b
  else a +:+ "/" +:+ b.

(** [str(n)] of an integer. *)
Definition str_int (n : Z) : string := NilZero.string_of_int (Z.to_int n).

(** The value of [img] when [create_icon] saves it. *)
Definition icon_image (size : Z) : image :=
  let img := Image_new "RGBA" (size, size) (TAILWIND_BLUE_500 ++ [255]) in
  let padding := size `div` 4 in
  ellipse img [padding; padding; size - padding; size - padding] (WHITE ++ [255]).

Definition create_icon (h : Host) (size : Z) (filename output_dir : string) : Run string :=
  let img := icon_image size in
  makedirs h output_dir;;
  let output_path := os_path_join output_dir filename in
  save h img output_path;;
  print ("✓ Generated " +:+ output_path);;
  mret output_path.

(** The items of the dict [sizes], in insertion order. *)
Definition sizes : list (Z * string) :=
  [(16, "icon16.png"); (32, "icon32.png"); (48, "icon48.png"); (128, "icon128.png")].

Definition icon_dirs : list string :=
  ["browser-extension/icons"; "extension/icons"; "extension-src/icons"; "public/icons"].

Definition main (h : Host) : Run unit :=
  print "🎨 Generating extension icons...";;
  print "";;
  for_each icon_dirs (λ icon_dir,
    let output_dir := os_path_join (repo_root h) icon_dir in
    print ("📁 " +:+ icon_dir +:+ "/");;
    for_each sizes (λ '(size, filename),
      create_icon h size filename output_dir;; mret tt);;
    print "");;
  print "✨ Done! All icons generated successfully.";;
  print "";;
  print "Icons generated:";;
  for_each sizes (λ '(size, filename),
    print ("  • " +:+ filename +:+ " (" +:+ str_int size +:+ "x" +:+ str_int size +:+ ")")).

(** Running the file as a script: the import guard, then [main]
    under [try ... except Exception]; the result is what was done
    and the exit status. *)
Definition script (h : Host) : list call * Z :=
  if pil_installed h then
    match main h with
    | (out, inr _) => (out, 0)
    | (out, inl e) => (out ++ [Echo ("❌ Error: " +:+ e)], 1)
    end
  else
    ([Echo "❌ Error: PIL (Pillow) is not installed.";
      Echo "Please install it with: pip3 install Pillow"], 1).

(** Reading a run. *)
Definition saved (out : list call) : list (string * image) :=
  omap (λ c, match c with SaveImage path img => Some (path, img) | _ => None end) out.

Definition failure (h : Host) (c : call) : option string :=
  match c with
  | Makedirs path => makedirs_error h path
  | SaveImage path _ => save_error h path
  | Echo _ => None
  end.

(** A run is sound when every call it made succeeded, except, in a
    run that raised, the last one, whose error is the one raised. *)
Definition sound (h : Host) {A : Type} (m : Run A) : Prop :=
  match m with
  | (out, inr _) => Forall (λ c, failure h c = None) out
  | (out, inl e) => ∃ before c, out = before ++ [c]
                                 ∧ Forall (λ c, failure h c = None) before
                                 ∧ failure h c = Some e
  end.

(** The two halves of [main]: the part that writes the files, and
    the summary printed after it. *)
Definition main_files (h : Host) : Run unit :=
  print "🎨 Generating extension icons...";;
  print "";;
  for_each icon_dirs (λ icon_dir,
    let output_dir := os_path_join (repo_root h) icon_dir in
    print ("📁 " +:+ icon_dir +:+ "/");;
    for_each sizes (λ '(size, filename),
      create_icon h size filename output_dir;; mret tt);;
    print "").

Definition main_summary : Run unit :=
  print "✨ Done! All icons generated successfully.";;
  print "";;
  print "Icons generated:";;
  for_each sizes (λ '(size, filename),
    print ("  • " +:+ filename +:+ " (" +:+ str_int size +:+ "x" +:+ str_int size +:+ ")")).

(** What [os.path.join] puts before a relative second argument. *)
Definition path_base (a : string) : string :=
  if (String.eqb a "" || ends_with_sep a)%bool then a else a +:+ "/".

(** A machine where nothing fails, and one with a read-only
    directory. *)
Definition host_ok : Host :=
  mkHost true "/repo" (λ _, None) (λ _, None).

Definition host_read_only : Host :=
  mkHost true "/repo"
    (λ _, None)
    (λ path, if String.prefix "/repo/extension/" path
             then Some "[Errno 13] Permission denied" else None).

End GenerateIcons.

(** * Properties *)

(** ** The dict constructor keeps the last item of each key *)

Section Dict.
Context {V : Type}.
Implicit Types (items : list (string * V)) (d : gmap string V).

Lemma fold_store_absent items d k :
  k ∉ items.*1 →
  fold_left (λ d' (kv : string * V), <[kv.1 := kv.2]> d') items d !! k = d !! k.
Proof.
  revert d. induction items as [|[k' v'] items IH]; intros d Hk; [done|].
  cbn in Hk. apply not_elem_of_cons in Hk as [Hne Hk].
  cbn. rewrite IH by done. by rewrite lookup_insert_ne.
Qed.

Lemma dict_lookup_absent items k :
  k ∉ items.*1 → dict items !! k = None.
Proof. intros Hk. unfold dict. by rewrite (fold_store_absent items ∅ k Hk). Qed.

Lemma dict_lookup_last items1 items2 k v :
  k ∉ items2.*1 → dict (items1 ++ (k, v) :: items2) !! k = Some v.
Proof.
  intros Hk. unfold dict. rewrite fold_left_app. cbn.
  rewrite (fold_store_absent items2 _ k Hk). apply lookup_insert_eq.
Qed.
End Dict.

(** ** The handler, case by case *)

Section Handler.
Context (w : World).
Implicit Types (d : gmap string pyval) (tr : list event).

Lemma process_url_dict d tr :
  process_url w (PDict d) tr =
    if truthy (url_of d) then
      match http_get w (url_of d) 30 with
      | Ok response =>
          let payload :=
            callback_payload w (prompt_of d) (http_response_package (url_of d) response) in
          (Ok (mkFlask
                 (PDict (dict [("message", PStr "URL processing initiated (simulated callback)");
                               ("payload_preview", payload)]))
                 200),
           tr ++ [HttpGet (url_of d) 30;
                  Stdout "Simulating LLM callback payload: " payload])
      | Raise e =>
          if is_RequestException e
          then (Ok (mkFlask (PDict (dict [("error", PStr (str e))])) 500),
                tr ++ [HttpGet (url_of d) 30])
          else (Raise e, tr ++ [HttpGet (url_of d) 30])
      end
    else
      (Ok (mkFlask (PDict (dict [("error", PStr "URL is required")])) 400), tr).
Proof.
  unfold process_url, url_of, prompt_of, get.
  generalize (match d !! "url" with Some v => v | None => PNone end).
  generalize (match d !! "originalPrompt" with Some v => v | None => PNone end).
  intros original_prompt url.
  unfold mbind, M_bind, mret, M_ret, jsonify.
  destruct (truthy url); cbn [negb]; [|done].
  unfold try_except, requests_get, print, emit.
  destruct (http_get w url 30) as [response|e].
  - by rewrite <- app_assoc.
  - by destruct e.
Qed.

Lemma url_of_Some d url : d !! "url" = Some url → url_of d = url.
Proof. unfold url_of. by intros ->. Qed.

Lemma url_of_None d : d !! "url" = None → url_of d = PNone.
Proof. unfold url_of. by intros ->. Qed.

Lemma prompt_of_Some d p : d !! "originalPrompt" = Some p → prompt_of d = p.
Proof. unfold prompt_of. by intros ->. Qed.

Lemma prompt_of_None d : d !! "originalPrompt" = None → prompt_of d = PNone.
Proof. unfold prompt_of. by intros ->. Qed.

(** Validation failure: nothing is sent, nothing is printed. *)
Lemma process_url_rejects d tr :
  truthy (url_of d) = false →
  process_url w (PDict d) tr =
    (Ok (mkFlask (PDict {["error" := PStr "URL is required"]}) 400), tr).
Proof. intros Hf. by rewrite process_url_dict, Hf. Qed.

(** The fetch returned a response, whatever its status. *)
Lemma process_url_fetched d tr response :
  truthy (url_of d) = true →
  http_get w (url_of d) 30 = Ok response →
  process_url w (PDict d) tr =
    (Ok (mkFlask
           (PDict (<["message" := PStr "URL processing initiated (simulated callback)"]>
                     {["payload_preview" :=
                         callback_payload w (prompt_of d)
                           (http_response_package (url_of d) response)]}))
           200),
     tr ++ [HttpGet (url_of d) 30;
            Stdout "Simulating LLM callback payload: "
              (callback_payload w (prompt_of d)
                 (http_response_package (url_of d) response))]).
Proof. intros Ht Hget. by rewrite process_url_dict, Ht, Hget. Qed.

(** The fetch raised an instance of [RequestException]. *)
Lemma process_url_failed d tr kind msg :
  truthy (url_of d) = true →
  http_get w (url_of d) 30 = Raise (RequestException kind msg) →
  process_url w (PDict d) tr =
    (Ok (mkFlask (PDict {["error" := PStr msg]}) 500),
     tr ++ [HttpGet (url_of d) 30]).
Proof. intros Ht Hget. by rewrite process_url_dict, Ht, Hget. Qed.

(** The fetch raised anything else: the handler does not catch it. *)
Lemma process_url_uncaught d tr e :
  truthy (url_of d) = true →
  http_get w (url_of d) 30 = Raise e →
  is_RequestException e = false →
  process_url w (PDict d) tr = (Raise e, tr ++ [HttpGet (url_of d) 30]).
Proof. intros Ht Hget He. by rewrite process_url_dict, Ht, Hget, He. Qed.

(** A body that is not a JSON object has no [get]: the handler
    raises before it validates anything. *)
Lemma process_url_not_an_object v tr :
  (∀ d, v ≠ PDict d) →
  process_url w v tr =
    (Raise (AttributeError ("'" +:+ type_name v +:+ "' object has no attribute 'get'")), tr).
Proof. intros Hv. destruct v; try done. by destruct (Hv d). Qed.

(** The payload is complete on every success. *)
Lemma callback_payload_fields prompt package :
  callback_payload w prompt package =
    PDict (<["automated_return" := PBool true]>
          (<["original_prompt" := prompt]>
          (<["timestamp" := PStr (now_isoformat w)]>
          (<["status_metadata" := PStr "Content gathering complete."]>
          {["result_package" :=
              PDict (<["dataType" := PStr "http_response"]> {["data" := package]})]})))).
Proof. reflexivity. Qed.

Lemma http_response_package_fields url response :
  http_response_package url response =
    PDict (<["status_code" := PInt (status_code response)]>
          (<["headers" := PDict (PStr <$> dict (headers response))]>
          (<["content" := PStr (text response)]>
          {["url" := url]}))).
Proof. reflexivity. Qed.
End Handler.

(** ** Inversion: what a 200 answer tells about the request *)

Lemma process_url_200_inv (w : World) (d : gmap string pyval)
    (r : flask_response) (tr : list event) :
  run (process_url w (PDict d)) = (Ok r, tr) →
  status r = 200 →
  ∃ url response,
    d !! "url" = Some url ∧
    truthy url = true ∧
    http_get w url 30 = Ok response ∧
    body r = PDict (<["message" := PStr "URL processing initiated (simulated callback)"]>
                      {["payload_preview" :=
                          callback_payload w (prompt_of d)
                            (http_response_package url response)]}) ∧
    tr = [HttpGet url 30;
          Stdout "Simulating LLM callback payload: "
            (callback_payload w (prompt_of d) (http_response_package url response))].
Proof.
  unfold run. rewrite process_url_dict. intros Hrun Hst.
  destruct (truthy (url_of d)) eqn:Ht.
  - assert (Hurl : d !! "url" = Some (url_of d)).
    { unfold url_of in *. by destruct (d !! "url"). }
    destruct (http_get w (url_of d) 30) as [response|e] eqn:Hget.
    + injection Hrun as <- <-. by exists (url_of d), response.
    + destruct (is_RequestException e); [|done].
      injection Hrun as <- _. done.
  - injection Hrun as <- _. done.
Qed.

(** ** The claims about [process_url] *)

(** C1, as the code has it: when the fetch of the requested URL
    returns upstream status 200 with body B and headers H, the gateway
    answers HTTP 200 with the JSON object
    {message: "URL processing initiated (simulated callback)",
     payload_preview: <callback payload>}, and
    payload_preview.result_package.data is exactly
    {status_code: 200, headers: H as a dict, content: B, url: <the
    requested URL>}.  The field names are the snake_case names of the
    source. *)
Theorem process_url_fetch_200 (w : World) (d : gmap string pyval)
    (url : pyval) (response : Response) :
  d !! "url" = Some url →
  truthy url = true →
  http_get w url 30 = Ok response →
  status_code response = 200 →
  ∃ r tr payload,
    run (process_url w (PDict d)) = (Ok r, tr) ∧
    status r = 200 ∧
    body r = PDict (<["message" := PStr "URL processing initiated (simulated callback)"]>
                      {["payload_preview" := payload]}) ∧
    path ["result_package"; "data"] payload =
      Some (PDict (<["status_code" := PInt 200]>
                  (<["headers" := PDict (PStr <$> dict (headers response))]>
                  (<["content" := PStr (text response)]>
                  {["url" := url]})))).
Proof.
  intros Hurl Ht Hget Hsc.
  apply url_of_Some in Hurl. rewrite <- Hurl in Ht, Hget.
  eexists _, _, _. unfold run.
  rewrite (process_url_fetched w d [] response Ht Hget).
  split; [reflexivity|]. split; [reflexivity|]. split; [reflexivity|].
  rewrite Hurl, http_response_package_fields, Hsc. reflexivity.
Qed.

Lemma process_url_fetch_200_witness :
  ∃ r tr payload,
    run (process_url world_ok (PDict request_cats)) = (Ok r, tr) ∧
    status r = 200 ∧
    body r = PDict (<["message" := PStr "URL processing initiated (simulated callback)"]>
                      {["payload_preview" := payload]}) ∧
    path ["result_package"; "data"] payload =
      Some (PDict (<["status_code" := PInt 200]>
                  (<["headers" := PDict (PStr <$> dict [("Content-Type", "application/json")])]>
                  (<["content" := PStr "{x:1}"]>
                  {["url" := PStr "http://example.test/ok"]})))).
Proof.
  apply (process_url_fetch_200 world_ok request_cats (PStr "http://example.test/ok")
           (mkResponse 200 [("Content-Type", "application/json")] "{x:1}"
                       "http://example.test/moved"));
    reflexivity.
Defined.

(** C1 as stated fails: on a fetch that returns 200 the response body
    has no field payloadPreview (nor resultPackage, nor statusCode);
    the claim's camelCase shape is not what the gateway sends. *)
Lemma process_url_camelCase_counterexample :
  ¬ ∃ r tr payload,
      run (process_url world_ok (PDict request_cats)) = (Ok r, tr) ∧
      status r = 200 ∧
      body r = PDict (<["message" := PStr "URL processing initiated (simulated callback)"]>
                        {["payloadPreview" := payload]}) ∧
      path ["resultPackage"; "data"] payload =
        Some (PDict (<["statusCode" := PInt 200]>
                    (<["headers" := PDict (PStr <$> dict [("Content-Type", "application/json")])]>
                    (<["content" := PStr "{x:1}"]>
                    {["url" := PStr "http://example.test/ok"]})))).
Proof.
  intros (r & tr & payload & Hrun & _ & Hbody & _).
  assert (Hnone : field "payloadPreview" (body r) = None).
  { injection Hrun as <- _. reflexivity. }
  rewrite Hbody in Hnone. cbn in Hnone.
  rewrite lookup_insert_ne, lookup_singleton_eq in Hnone; done.
Qed.

(** C2: when the request body has no url field, or its url is the
    empty string, the gateway answers HTTP 400 with
    {error: "URL is required"} and attempts no outbound fetch (the
    trace of the request is empty), whatever other fields the body
    carries. *)
Theorem process_url_url_required (w : World) (d : gmap string pyval) :
  d !! "url" = None ∨ d !! "url" = Some (PStr "") →
  run (process_url w (PDict d)) =
    (Ok (mkFlask (PDict {["error" := PStr "URL is required"]}) 400), []).
Proof.
  intros Hurl. unfold run. apply process_url_rejects.
  destruct Hurl as [Hurl|Hurl].
  - by rewrite (url_of_None d Hurl).
  - by rewrite (url_of_Some d _ Hurl).
Qed.

Lemma process_url_url_required_witness :
  run (process_url world_ok (PDict request_no_url)) =
    (Ok (mkFlask (PDict {["error" := PStr "URL is required"]}) 400), []).
Proof.
  apply (process_url_url_required world_ok request_no_url).
  left. reflexivity.
Defined.

Lemma description_not_empty (f : Client.transport_failure) :
  Client.description f ≠ "".
Proof. destruct f as [reading_body pool message|cause pool url reason]; by destruct pool. Qed.

(** C3: when the outbound fetch fails at the transport level (a read
    or connect timeout, a refused connection or a name that does not
    resolve, a TLS failure), the exception that requests raises is
    caught: the gateway answers HTTP 500 with the JSON object
    {error: <the description of the underlying urllib3 error>}, that
    error string is not empty, and the body carries no
    payload_preview. *)
Theorem process_url_fetch_error_500 (w : World) (d : gmap string pyval)
    (url : pyval) (f : Client.transport_failure) :
  d !! "url" = Some url →
  truthy url = true →
  http_get w url 30 = Raise (Client.raised f) →
  ∃ r err,
    run (process_url w (PDict d)) = (Ok r, [HttpGet url 30]) ∧
    status r = 500 ∧
    body r = PDict {["error" := PStr err]} ∧
    err = Client.description f ∧
    err ≠ "" ∧
    field "payload_preview" (body r) = None.
Proof.
  intros Hurl Ht Hget.
  apply url_of_Some in Hurl. rewrite <- Hurl in Ht, Hget.
  exists (mkFlask (PDict {["error" := PStr (Client.description f)]}) 500),
         (Client.description f).
  unfold run.
  rewrite (process_url_failed w d [] _ _ Ht Hget), Hurl.
  repeat split; try done. apply description_not_empty.
Qed.

Lemma process_url_fetch_error_500_witness :
  ∃ r err,
    run (process_url world_down (PDict request_cats)) =
      (Ok r, [HttpGet (PStr "http://example.test/ok") 30]) ∧
    status r = 500 ∧
    body r = PDict {["error" := PStr err]} ∧
    err = "HTTPConnectionPool(host='example.test', port=80): Read timed out. (read timeout=30)" ∧
    err ≠ "" ∧
    field "payload_preview" (body r) = None.
Proof.
  apply (process_url_fetch_error_500 world_down request_cats
           (PStr "http://example.test/ok")
           (Client.ReadTimeoutError false
              "HTTPConnectionPool(host='example.test', port=80)"
              "Read timed out. (read timeout=30)"));
    reflexivity.
Defined.

(** C4: when the fetch completes with an upstream status outside
    200..299, the gateway still answers HTTP 200; the payload's status
    metadata is the literal "Content gathering complete." and the
    packaged status code is the upstream status, unchanged. *)
Theorem process_url_non_2xx_is_success (w : World) (d : gmap string pyval)
    (url : pyval) (response : Response) :
  d !! "url" = Some url →
  truthy url = true →
  http_get w url 30 = Ok response →
  ¬ (200 ≤ status_code response < 300)%Z →
  ∃ r tr,
    run (process_url w (PDict d)) = (Ok r, tr) ∧
    status r = 200 ∧
    path ["payload_preview"; "status_metadata"] (body r) =
      Some (PStr "Content gathering complete.") ∧
    path ["payload_preview"; "result_package"; "data"; "status_code"] (body r) =
      Some (PInt (status_code response)).
Proof.
  intros Hurl Ht Hget _.
  apply url_of_Some in Hurl. rewrite <- Hurl in Ht, Hget.
  eexists _, _. unfold run.
  rewrite (process_url_fetched w d [] response Ht Hget).
  repeat split; reflexivity.
Qed.

Lemma process_url_non_2xx_is_success_witness :
  ∃ r tr,
    run (process_url world_404 (PDict request_bare)) = (Ok r, tr) ∧
    status r = 200 ∧
    path ["payload_preview"; "status_metadata"] (body r) =
      Some (PStr "Content gathering complete.") ∧
    path ["payload_preview"; "result_package"; "data"; "status_code"] (body r) =
      Some (PInt 404).
Proof.
  apply (process_url_non_2xx_is_success world_404 request_bare
           (PStr "http://example.test/ok")
           (mkResponse 404 [("X-Trace", "a, b"); ("Server", "stub")]
                       "not found" "http://example.test/missing"));
    [reflexivity | reflexivity | reflexivity | simpl; lia].
Defined.

(** C5: on every success path of [process_url], the packaged url
    (payload_preview.result_package.data.url) is the very value the
    request supplied under "url"; the final URL of the exchange
    ([resp_url] of the response) plays no part. *)
Theorem package_url_is_request_url (w : World) (d : gmap string pyval)
    (r : flask_response) (tr : list event) :
  run (process_url w (PDict d)) = (Ok r, tr) →
  status r = 200 →
  path ["payload_preview"; "result_package"; "data"; "url"] (body r) = d !! "url".
Proof.
  intros Hrun Hst.
  destruct (process_url_200_inv w d r tr Hrun Hst)
    as (url & response & Hurl & _ & _ & -> & _).
  rewrite Hurl. reflexivity.
Qed.

Lemma package_url_is_request_url_witness :
  ∃ r tr,
    run (process_url world_ok (PDict request_cats)) = (Ok r, tr) ∧
    status r = 200 ∧
    path ["payload_preview"; "result_package"; "data"; "url"] (body r) =
      Some (PStr "http://example.test/ok").
Proof.
  eexists _, _.
  split; [reflexivity|]. split; [reflexivity|].
  apply (package_url_is_request_url world_ok request_cats _
           [HttpGet (PStr "http://example.test/ok") 30;
            Stdout "Simulating LLM callback payload: "
              (callback_payload world_ok (PStr "find cats")
                 (http_response_package (PStr "http://example.test/ok")
                    (mkResponse 200 [("Content-Type", "application/json")]
                       "{x:1}" "http://example.test/moved")))]);
    reflexivity.
Defined.

(** C6: the dataType of the request has no effect: a request with any
    dataType value is processed exactly as the same request without
    one (same answer, same events); and on every success the payload's
    result_package.dataType is the literal "http_response". *)
Theorem process_url_ignores_dataType (w : World) (d : gmap string pyval) (v : pyval) :
  run (process_url w (PDict (<["dataType" := v]> d))) =
    run (process_url w (PDict (delete "dataType" d)))
  ∧ ∀ r tr,
      run (process_url w (PDict (<["dataType" := v]> d))) = (Ok r, tr) →
      status r = 200 →
      path ["payload_preview"; "result_package"; "dataType"] (body r) =
        Some (PStr "http_response").
Proof.
  split.
  - unfold run. rewrite !process_url_dict. unfold url_of, prompt_of.
    rewrite !lookup_insert_ne, !lookup_delete_ne by done. reflexivity.
  - intros r tr Hrun Hst.
    destruct (process_url_200_inv w _ r tr Hrun Hst)
      as (url & response & _ & _ & _ & -> & _).
    reflexivity.
Qed.

Lemma process_url_ignores_dataType_witness :
  run (process_url world_ok (PDict (<["dataType" := PStr "pdf"]> request_cats))) =
    run (process_url world_ok (PDict (delete "dataType" request_cats)))
  ∧ ∃ r tr,
      run (process_url world_ok (PDict (<["dataType" := PStr "pdf"]> request_cats))) = (Ok r, tr) ∧
      path ["payload_preview"; "result_package"; "dataType"] (body r) =
        Some (PStr "http_response").
Proof.
  destruct (process_url_ignores_dataType world_ok request_cats (PStr "pdf")) as [Hsame Hlit].
  split; [exact Hsame|].
  eexists _, _. split; [reflexivity|].
  eapply Hlit; reflexivity.
Defined.

(** C7: on every success the caller's originalPrompt is echoed
    unchanged under payload_preview.original_prompt; when the request
    has no originalPrompt the field holds None (JSON null), not the
    empty string. *)
Theorem process_url_echoes_originalPrompt (w : World) (d : gmap string pyval)
    (r : flask_response) (tr : list event) :
  run (process_url w (PDict d)) = (Ok r, tr) →
  status r = 200 →
  (∀ p, d !! "originalPrompt" = Some p →
        path ["payload_preview"; "original_prompt"] (body r) = Some p)
  ∧ (d !! "originalPrompt" = None →
        path ["payload_preview"; "original_prompt"] (body r) = Some PNone
        ∧ path ["payload_preview"; "original_prompt"] (body r) ≠ Some (PStr "")).
Proof.
  intros Hrun Hst.
  destruct (process_url_200_inv w d r tr Hrun Hst)
    as (url & response & _ & _ & _ & -> & _).
  assert (Hecho : path ["payload_preview"; "original_prompt"]
            (PDict (<["message" := PStr "URL processing initiated (simulated callback)"]>
                      {["payload_preview" :=
                          callback_payload w (prompt_of d)
                            (http_response_package url response)]}))
          = Some (prompt_of d)) by reflexivity.
  cbn [body]. rewrite Hecho. split.
  - intros p Hp. by rewrite (prompt_of_Some d p Hp).
  - intros Hp. by rewrite (prompt_of_None d Hp).
Qed.

Lemma process_url_echoes_originalPrompt_witness :
  ∃ r1 r2 tr1 tr2,
    run (process_url world_ok (PDict request_cats)) = (Ok r1, tr1) ∧
    path ["payload_preview"; "original_prompt"] (body r1) = Some (PStr "find cats") ∧
    run (process_url world_ok (PDict request_bare)) = (Ok r2, tr2) ∧
    path ["payload_preview"; "original_prompt"] (body r2) = Some PNone.
Proof.
  eexists _, _, _, _.
  split; [reflexivity|]. split.
  - eapply (process_url_echoes_originalPrompt world_ok request_cats); reflexivity.
  - split; [reflexivity|].
    eapply (process_url_echoes_originalPrompt world_ok request_bare); reflexivity.
Defined.

(** C8, as the code has it: a request whose body is a JSON object,
    and whose fetch, if it raises, raises a RequestException, ends in
    exactly one of three answers: HTTP 200 with the complete payload
    of a completed fetch; HTTP 400 with only the validation error and
    no fetch; HTTP 500 with only the text of the fetch failure.  The
    handler catches nothing else: a body that is JSON but not an
    object raises AttributeError before anything is validated, and an
    exception of the client that is not a RequestException leaves the
    handler after the fetch; in both cases the handler builds no
    response.  These five are all the ways a request can end. *)
Theorem process_url_outcomes (w : World) (data : pyval) :
  match run (process_url w data) with
  | (Ok r, tr) =>
      ∃ d, data = PDict d ∧
        ((status r = 200 ∧
          ∃ url response,
            d !! "url" = Some url ∧
            http_get w url 30 = Ok response ∧
            tr = [HttpGet url 30;
                  Stdout "Simulating LLM callback payload: "
                    (callback_payload w (prompt_of d) (http_response_package url response))] ∧
            body r = PDict (<["message" := PStr "URL processing initiated (simulated callback)"]>
                              {["payload_preview" :=
                                  callback_payload w (prompt_of d)
                                    (http_response_package url response)]}))
         ∨ (status r = 400 ∧
            truthy (url_of d) = false ∧
            tr = [] ∧
            body r = PDict {["error" := PStr "URL is required"]})
         ∨ (status r = 500 ∧
            ∃ e,
              http_get w (url_of d) 30 = Raise e ∧
              is_RequestException e = true ∧
              tr = [HttpGet (url_of d) 30] ∧
              body r = PDict {["error" := PStr (str e)]}))
  | (Raise e, tr) =>
      ((∀ d, data ≠ PDict d) ∧
       tr = [] ∧
       e = AttributeError ("'" +:+ type_name data +:+ "' object has no attribute 'get'"))
      ∨ (∃ d, data = PDict d ∧
              truthy (url_of d) = true ∧
              http_get w (url_of d) 30 = Raise e ∧
              is_RequestException e = false ∧
              tr = [HttpGet (url_of d) 30])
  end
  ∧ (∀ d, data = PDict d →
       (∀ e, http_get w (url_of d) 30 = Raise e → is_RequestException e = true) →
       ∃ r tr, run (process_url w data) = (Ok r, tr)
               ∧ (status r = 200 ∨ status r = 400 ∨ status r = 500)).
Proof.
  unfold run. split.
  - destruct data as [|b|z|f|s|l|d];
      try (rewrite process_url_not_an_object by done; left; done).
    rewrite process_url_dict.
    destruct (truthy (url_of d)) eqn:Ht.
    + destruct (http_get w (url_of d) 30) as [response|e] eqn:Hget.
      * exists d. split; [done|]. left. split; [done|].
        exists (url_of d), response. repeat split; try done.
        unfold url_of in *. by destruct (d !! "url").
      * destruct (is_RequestException e) eqn:He.
        -- exists d. split; [done|]. right; right. split; [done|]. by exists e.
        -- right. by exists d.
    + exists d. split; [done|]. right; left. done.
  - intros d -> Hnormal. rewrite process_url_dict.
    destruct (truthy (url_of d)); [|eexists _, _; split; [done|]; by right; left].
    destruct (http_get w (url_of d) 30) as [response|e] eqn:Hget.
    + eexists _, _. split; [done|]. by left.
    + rewrite (Hnormal e eq_refl). eexists _, _. split; [done|]. by right; right.
Qed.

Lemma process_url_outcomes_witness :
  ∃ r tr,
    run (process_url world_down (PDict request_cats)) = (Ok r, tr) ∧
    (status r = 200 ∨ status r = 400 ∨ status r = 500).
Proof.
  destruct (process_url_outcomes world_down (PDict request_cats)) as [_ Hreturns].
  apply (Hreturns request_cats eq_refl).
  intros e He. injection He as <-. reflexivity.
Defined.

(** C8 as stated fails: a request whose JSON body is an array ends in
    none of the three answers; the handler raises AttributeError and
    builds no response. *)
Lemma process_url_array_body_counterexample :
  ¬ ∃ r tr,
      run (process_url world_ok (PList [PStr "http://example.test/ok"])) = (Ok r, tr)
      ∧ (status r = 200 ∨ status r = 400 ∨ status r = 500).
Proof. intros (r & tr & Hrun & _). discriminate Hrun. Qed.

(** C10: the presence check on url is a truth-value test.  A url that
    is present but falsy (the empty string, null, false, 0, the empty
    array are all falsy) is answered exactly as an absent url: HTTP
    400 with {error: "URL is required"} and no fetch.  A url that is
    truthy passes the check whatever its type: a fetch of it is
    attempted. *)
Theorem url_check_is_truthiness (w : World) (d : gmap string pyval) (v : pyval) :
  d !! "url" = Some v →
  (truthy v = false →
     run (process_url w (PDict d)) =
       (Ok (mkFlask (PDict {["error" := PStr "URL is required"]}) 400), [])
     ∧ run (process_url w (PDict d)) = run (process_url w (PDict (delete "url" d))))
  ∧ (truthy v = true →
     ∃ res tr, run (process_url w (PDict d)) = (res, HttpGet v 30 :: tr))
  ∧ (truthy (PStr "") = false ∧ truthy PNone = false ∧ truthy (PBool false) = false
     ∧ truthy (PInt 0) = false ∧ truthy (PList []) = false).
Proof.
  intros Hurl. apply url_of_Some in Hurl. split; [|split].
  - intros Hf. unfold run.
    rewrite !process_url_rejects; [done| |by rewrite Hurl].
    unfold url_of. by rewrite lookup_delete_eq.
  - intros Ht. unfold run. rewrite process_url_dict, Hurl, Ht.
    destruct (http_get w v 30) as [response|e]; [by eexists _, _|].
    destruct (is_RequestException e); by eexists _, _.
  - repeat split; reflexivity.
Qed.

Lemma url_check_is_truthiness_witness :
  run (process_url world_ok (PDict request_url_empty_list)) =
    (Ok (mkFlask (PDict {["error" := PStr "URL is required"]}) 400), [])
  ∧ run (process_url world_ok (PDict request_url_empty_list)) =
      run (process_url world_ok (PDict (delete "url" request_url_empty_list)))
  ∧ ∃ res tr, run (process_url world_ok (PDict request_url_number)) =
                (res, HttpGet (PInt 5) 30 :: tr).
Proof.
  destruct (url_check_is_truthiness world_ok request_url_empty_list (PList []) eq_refl)
    as [Hfalsy _].
  destruct (url_check_is_truthiness world_ok request_url_number (PInt 5) eq_refl)
    as (_ & Htruthy & _).
  destruct (Hfalsy eq_refl) as [H400 Hsame].
  split; [exact H400|]. split; [exact Hsame|].
  apply Htruthy. reflexivity.
Defined.


(** * Further properties of [process_url] *)

Lemma truthy_false_iff (v : pyval) :
  truthy v = false ↔
    v = PNone ∨ v = PBool false ∨ v = PInt 0 ∨ (∃ sign, v = PFloat (S754_zero sign))
    ∨ v = PStr "" ∨ v = PList [] ∨ v = PDict ∅.
Proof.
  split.
  - destruct v as [|b|z|f|s|l|d]; cbn; intros Hv.
    + by left.
    + right; left. by subst.
    + right; right; left. apply negb_false_iff, Z.eqb_eq in Hv. by subst.
    + right; right; right; left. destruct f; try done. by eexists.
    + do 4 right; left. by destruct s.
    + do 5 right; left. by destruct l.
    + do 6 right. apply negb_false_iff, Nat.eqb_eq, map_size_empty_iff in Hv. by subst.
  - intros [->|[->|[->|[[sign ->]|[->|[->| ->]]]]]]; reflexivity.
Qed.

Lemma dict_is_Some {V : Type} (items : list (string * V)) (k : string) :
  is_Some (dict items !! k) ↔ k ∈ items.*1.
Proof.
  unfold dict.
  assert (Hgen : ∀ d : gmap string V,
    is_Some (fold_left (λ d' (kv : string * V), <[kv.1 := kv.2]> d') items d !! k)
    ↔ k ∈ items.*1 ∨ is_Some (d !! k)).
  { induction items as [|[k' v'] items IH]; intros d; cbn.
    - rewrite elem_of_nil. tauto.
    - rewrite IH, elem_of_cons, lookup_insert_is_Some.
      destruct (decide (k' = k)) as [->|Hne]; [intuition|].
      intuition congruence. }
  rewrite Hgen, lookup_empty. split; [|tauto].
  intros [?|[? ?]]; [done|discriminate].
Qed.

(** ** The header mapping of the client *)

Section ClientHeaders.
Import Client.
Context (lower : string → string).

Lemma od_get_set {V : Type} (k k' : string) (v : V) (od : list (string * V)) :
  od_get k (od_set k' v od) = if decide (k' = k) then Some v else od_get k od.
Proof.
  induction od as [|[k0 v0] od IH]; cbn; [done|].
  destruct (decide (k0 = k')) as [->|Hne]; cbn.
  - by destruct (decide (k' = k)).
  - rewrite IH. destruct (decide (k0 = k)) as [->|]; [|done].
    by destruct (decide (k' = k)).
Qed.

Lemma od_set_fresh {V : Type} (k : string) (v : V) (od : list (string * V)) :
  k ∉ od.*1 → od_set k v od = od ++ [(k, v)].
Proof.
  induction od as [|[k0 v0] od IH]; cbn; [done|].
  rewrite not_elem_of_cons. intros [Hne Hk].
  destruct (decide (k0 = k)); [congruence|]. by rewrite IH.
Qed.

Lemma od_set_keys {V : Type} (k : string) (v : V) (od : list (string * V)) :
  k ∈ od.*1 → (od_set k v od).*1 = od.*1.
Proof.
  induction od as [|[k0 v0] od IH]; cbn; [by rewrite elem_of_nil|].
  rewrite elem_of_cons. intros Hk.
  destruct (decide (k0 = k)) as [->|Hne]; cbn; [done|].
  rewrite IH; [done|]. by destruct Hk as [->|].
Qed.

Lemma od_get_Some_elem {V : Type} (k : string) (v : V) (od : list (string * V)) :
  od_get k od = Some v → (k, v) ∈ od.
Proof.
  induction od as [|[k0 v0] od IH]; cbn; [done|].
  destruct (decide (k0 = k)) as [->|Hne].
  - intros [= ->]. by left.
  - intros Hget. right. by apply IH.
Qed.

Lemma od_get_None {V : Type} (k : string) (od : list (string * V)) :
  od_get k od = None → k ∉ od.*1.
Proof.
  induction od as [|[k0 v0] od IH]; cbn; [intros _; apply not_elem_of_nil|].
  destruct (decide (k0 = k)) as [->|Hne]; [done|].
  intros Hget. rewrite not_elem_of_cons. split; [done|by apply IH].
Qed.

Lemma od_get_elem {V : Type} (k : string) (v : V) (od : list (string * V)) :
  NoDup od.*1 → (k, v) ∈ od → od_get k od = Some v.
Proof.
  induction od as [|[k0 v0] od IH]; cbn; [by rewrite elem_of_nil|].
  rewrite NoDup_cons, elem_of_cons. intros [Hk0 Hnd] [[= -> ->]|Hin].
  - by destruct (decide (k0 = k0)).
  - destruct (decide (k0 = k)) as [->|Hne]; [|by apply IH].
    destruct Hk0. apply list_elem_of_fmap. by exists (k, v).
Qed.

Lemma add_wf c key val :
  container_wf lower c → container_wf lower (add lower c key val).
Proof.
  intros [Hnd Hent]. unfold add.
  destruct (od_get (lower key) c) as [vals|] eqn:Hget.
  - pose proof (od_get_Some_elem _ _ _ Hget) as Hin.
    assert (Hk : lower key ∈ c.*1).
    { apply list_elem_of_fmap. by exists (lower key, vals). }
    split; [by rewrite od_set_keys|].
    intros kl vals' Hin'.
    assert (Hget' : od_get kl (od_set (lower key) (vals ++ [val]) c) = Some vals').
    { apply od_get_elem; [by rewrite od_set_keys|done]. }
    rewrite od_get_set in Hget'.
    destruct (decide (lower key = kl)) as [<-|Hne].
    + injection Hget' as <-. destruct (Hent _ _ Hin) as (key0 & rest & -> & Hlow).
      by exists key0, (rest ++ [val]).
    + apply Hent. by apply od_get_Some_elem.
  - pose proof (od_get_None _ _ Hget) as Hk.
    rewrite od_set_fresh by done. split.
    + rewrite fmap_app. apply NoDup_app. split; [done|]. split.
      * intros k Hin [->|[]%elem_of_nil]%elem_of_cons. done.
      * apply NoDup_singleton.
    + intros kl vals' [Hin|[= -> ->]%list_elem_of_singleton]%elem_of_app.
      * by apply Hent.
      * by exists key, [val].
Qed.

Lemma HTTPHeaderDict_wf fields : container_wf lower (HTTPHeaderDict lower fields).
Proof.
  unfold HTTPHeaderDict.
  assert (Hgen : ∀ c, container_wf lower c →
            container_wf lower (fold_left (λ c kv, add lower c kv.1 kv.2) fields c)).
  { induction fields as [|[key val] fields IH]; intros c Hc; cbn; [done|].
    apply IH. by apply add_wf. }
  apply Hgen. split; [constructor|]. intros kl vals []%elem_of_nil.
Qed.

(** The entry of a lowered name holds the name as first spelled and
    the values of all fields of that name, in the order received. *)
Lemma od_get_add (k : string) c key val :
  od_get k (add lower c key val) =
    if decide (lower key = k)
    then Some (match od_get k c with Some vals => vals ++ [val] | None => [key; val] end)
    else od_get k c.
Proof.
  unfold add. destruct (od_get (lower key) c) as [vals|] eqn:Hget;
    rewrite od_get_set; destruct (decide (lower key = k)) as [<-|]; by rewrite ?Hget.
Qed.

Lemma collect_Some (k : string) (fields : list (string * string)) (vals : list string) :
  fold_left
    (λ acc (f : string * string),
       if decide (lower f.1 = k)
       then Some (match acc with Some vals => vals ++ [f.2] | None => [f.1; f.2] end)
       else acc)
    fields (Some vals)
  = Some (vals ++ (filter (λ f, lower f.1 = k) fields).*2).
Proof.
  revert vals. induction fields as [|[key val] fields IH]; intros vals.
  - cbn. by rewrite app_nil_r.
  - cbn [fold_left fst snd].
    destruct (decide (lower key = k)) as [Hk|Hk].
    + rewrite IH, filter_cons_True by done. by rewrite fmap_cons, <- app_assoc.
    + by rewrite IH, filter_cons_False.
Qed.

Lemma HTTPHeaderDict_get (k : string) (fields : list (string * string)) :
  od_get k (HTTPHeaderDict lower fields) =
    match filter (λ f, lower f.1 = k) fields with
    | [] => None
    | f :: rest => Some (f.1 :: (f :: rest).*2)
    end.
Proof.
  unfold HTTPHeaderDict.
  assert (Hfold : ∀ c,
    od_get k (fold_left (λ c kv, add lower c kv.1 kv.2) fields c) =
    fold_left
      (λ acc (f : string * string),
         if decide (lower f.1 = k)
         then Some (match acc with Some vals => vals ++ [f.2] | None => [f.1; f.2] end)
         else acc)
      fields (od_get k c)).
  { induction fields as [|[key val] fields IH]; intros c; cbn; [done|].
    by rewrite IH, od_get_add. }
  rewrite Hfold. cbn [od_get]. clear Hfold.
  induction fields as [|[key val] fields IH]; [done|].
  cbn [fold_left fst snd].
  destruct (decide (lower key = k)) as [Hk|Hk].
  - by rewrite collect_Some, filter_cons_True.
  - by rewrite IH, filter_cons_False.
Qed.

(** [CaseInsensitiveDict] and [dict] keep the entries as they are. *)
Lemma CaseInsensitiveDict_of_wf c :
  container_wf lower c →
  CaseInsensitiveDict lower c =
    Some ((λ entry, (entry.1, (default "" (head entry.2), join ", " (tail entry.2))))
            <$> c).
Proof.
  intros [Hnd Hent]. unfold CaseInsensitiveDict, HTTPHeaderDict_iter.
  set (g := λ entry : string * list string,
              (entry.1, (default "" (head entry.2), join ", " (tail entry.2)))).
  assert (Hgen : ∀ done rest, c = done ++ rest →
    fold_left
      (λ store key,
         st ← store;
         v ← HTTPHeaderDict_getitem lower c key;
         Some (od_set (lower key) (key, v) st))
      ((λ entry : string * list string, default "" (head entry.2)) <$> rest)
      (Some (g <$> done))
    = Some (g <$> c)).
  { intros done rest. revert done.
    induction rest as [|[kl vals] rest IH]; intros done Hc; cbn.
    - by rewrite Hc, app_nil_r.
    - assert (Hin : (kl, vals) ∈ c).
      { rewrite Hc. apply elem_of_app. right. by left. }
      destruct (Hent _ _ Hin) as (key & values & -> & Hlow). cbn.
      unfold HTTPHeaderDict_getitem. rewrite Hlow, (od_get_elem _ _ _ Hnd Hin). cbn.
      rewrite od_set_fresh.
      + rewrite <- (IH (done ++ [(kl, key :: values)])).
        * by rewrite fmap_app.
        * by rewrite Hc, <- app_assoc.
      + rewrite Hc, fmap_app in Hnd. apply NoDup_app in Hnd as (_ & Hdisj & _).
        intros Hk. apply (Hdisj kl).
        * rewrite <- list_fmap_compose in Hk.
          apply list_elem_of_fmap in Hk as ([k0 v0] & -> & Hk).
          apply list_elem_of_fmap. by exists (k0, v0).
        * by left. }
  by apply (Hgen [] c).
Qed.

Lemma response_headers_items (fields : list (string * string)) :
  response_headers lower fields =
    Some ((λ entry, (default "" (head entry.2), join ", " (tail entry.2)))
            <$> HTTPHeaderDict lower fields).
Proof.
  unfold response_headers.
  pose proof (HTTPHeaderDict_wf fields) as Hwf.
  rewrite (CaseInsensitiveDict_of_wf _ Hwf). cbn.
  destruct Hwf as [Hnd Hent]. unfold CaseInsensitiveDict_iter.
  generalize dependent (HTTPHeaderDict lower fields). intros c Hnd Hent.
  set (g := λ entry : string * list string,
              (entry.1, (default "" (head entry.2), join ", " (tail entry.2)))).
  assert (Hgen : ∀ rest, rest ⊆ c →
    mapM (λ key, v ← CaseInsensitiveDict_getitem lower (g <$> c) key; Some (key, v))
         ((λ entry : string * (string * string), entry.2.1) <$> (g <$> rest))
    = Some ((λ entry : string * list string,
               (default "" (head entry.2), join ", " (tail entry.2))) <$> rest)).
  { induction rest as [|[kl vals] rest IH]; intros Hsub; [done|].
    assert (Hin : (kl, vals) ∈ c) by (apply Hsub; by left).
    destruct (Hent _ _ Hin) as (key & values & -> & Hlow).
    assert (Hget : CaseInsensitiveDict_getitem lower (g <$> c) key
                   = Some (join ", " values)).
    { unfold CaseInsensitiveDict_getitem. rewrite Hlow.
      rewrite (od_get_elem kl (g (kl, key :: values)).2 (g <$> c)); [done| |].
      - rewrite <- list_fmap_compose. exact Hnd.
      - apply list_elem_of_fmap. by exists (kl, key :: values). }
    cbn. rewrite Hget. cbn. rewrite IH; [done|].
    intros x Hx. apply Hsub. by right. }
  by apply Hgen.
Qed.

Lemma filter_none {A : Type} (P : A → Prop) `{∀ x, Decision (P x)} (l : list A) :
  Forall (λ x, ¬ P x) l → filter P l = [].
Proof.
  induction 1 as [|x l Hx Hl IH]; [done|]. by rewrite filter_cons_False.
Qed.

Lemma response_headers_first (fields items before after : list (string * string))
    (name value : string) :
  response_headers lower fields = Some items →
  fields = before ++ (name, value) :: after →
  Forall (λ f, lower f.1 ≠ lower name) before →
  (name, join ", " (filter (λ f, lower f.1 = lower name) fields).*2) ∈ items.
Proof.
  rewrite response_headers_items. intros [= <-] -> Hbefore.
  pose proof (HTTPHeaderDict_get (lower name) (before ++ (name, value) :: after)) as Hget.
  rewrite filter_app, filter_cons_True, (filter_none _ before) in Hget |- * by done.
  cbn [app] in Hget |- *.
  apply od_get_Some_elem in Hget.
  apply list_elem_of_fmap. by eexists (_, _ :: _).
Qed.

Lemma response_headers_lower (fields items : list (string * string)) :
  response_headers lower fields = Some items →
  lower <$> items.*1 = (HTTPHeaderDict lower fields).*1.
Proof.
  rewrite response_headers_items. intros [= <-].
  destruct (HTTPHeaderDict_wf fields) as [_ Hent].
  rewrite <- !list_fmap_compose. apply list_fmap_ext.
  intros i [kl vals] Hi. apply list_elem_of_lookup_2 in Hi.
  destruct (Hent _ _ Hi) as (key & rest & -> & Hlow). done.
Qed.

Lemma response_headers_from_fields (fields items : list (string * string))
    (name : string) :
  response_headers lower fields = Some items →
  name ∈ items.*1 → name ∈ fields.*1.
Proof.
  rewrite response_headers_items. intros [= <-].
  destruct (HTTPHeaderDict_wf fields) as [Hnd Hent].
  rewrite <- list_fmap_compose. intros ([kl vals] & -> & Hin)%list_elem_of_fmap.
  destruct (Hent _ _ Hin) as (key & rest & -> & Hlow). cbn.
  pose proof (od_get_elem _ _ _ Hnd Hin) as Hget.
  rewrite HTTPHeaderDict_get in Hget.
  destruct (filter _ fields) as [|f more] eqn:Hfilter; [done|].
  injection Hget as <- _.
  assert (Hf : f ∈ filter (λ f, lower f.1 = kl) fields) by (rewrite Hfilter; by left).
  apply list_elem_of_filter in Hf as [_ Hf].
  apply list_elem_of_fmap. by exists f.
Qed.
End ClientHeaders.

Lemma dict_lookup_elem {V : Type} (items : list (string * V)) (k : string) (v : V) :
  NoDup items.*1 → (k, v) ∈ items → dict items !! k = Some v.
Proof.
  intros Hnd Hin. apply list_elem_of_split in Hin as (l1 & l2 & ->).
  apply dict_lookup_last.
  rewrite fmap_app, fmap_cons in Hnd.
  apply NoDup_app in Hnd as (_ & _ & Hnd). by apply NoDup_cons in Hnd as [? _].
Qed.

(** C9, as the code has it: the headers of every packaged response
    form a mapping that gives each header name one string, names
    being told apart without regard to case; when the upstream
    response carries several header fields of one name, the mapping
    holds, under the name as first spelled, the values of all of
    them joined with ", " in the order received (the client joins
    them before the handler sees them), not the last value alone;
    and it holds nothing under a name that no field carries. *)
Theorem package_headers_joined (lower : string → string) (w : World)
    (d : gmap string pyval) (url : pyval) (response : Response)
    (fields : list (string * string)) :
  d !! "url" = Some url →
  truthy url = true →
  http_get w url 30 = Ok response →
  Client.response_headers lower fields = Some (headers response) →
  ∃ r tr (hd : gmap string string),
    run (process_url w (PDict d)) = (Ok r, tr) ∧
    path ["payload_preview"; "result_package"; "data"; "headers"] (body r) =
      Some (PDict (PStr <$> hd)) ∧
    (∀ k1 k2, is_Some (hd !! k1) → is_Some (hd !! k2) → lower k1 = lower k2 → k1 = k2) ∧
    (∀ before name value after,
        fields = before ++ (name, value) :: after →
        Forall (λ f, lower f.1 ≠ lower name) before →
        hd !! name =
          Some (Client.join ", " (filter (λ f, lower f.1 = lower name) fields).*2)) ∧
    (∀ name, name ∉ fields.*1 → hd !! name = None).
Proof.
  intros Hurl Ht Hget Hitems.
  apply url_of_Some in Hurl. rewrite <- Hurl in Ht, Hget.
  eexists _, _, (dict (headers response)). unfold run.
  rewrite (process_url_fetched w d [] response Ht Hget).
  split; [reflexivity|]. split; [reflexivity|].
  assert (Hnd : NoDup (lower <$> (headers response).*1)).
  { rewrite (response_headers_lower lower fields _ Hitems).
    apply (HTTPHeaderDict_wf lower fields). }
  split; [|split].
  - intros k1 k2 H1%dict_is_Some H2%dict_is_Some Hlow.
    apply list_elem_of_lookup in H1 as [i1 H1], H2 as [i2 H2].
    assert (i1 = i2) as <-.
    { apply (NoDup_lookup _ i1 i2 (lower k1) Hnd); rewrite list_lookup_fmap.
      - by rewrite H1.
      - by rewrite H2, Hlow. }
    congruence.
  - intros before name value after Hfields Hbefore.
    apply dict_lookup_elem; [by apply NoDup_fmap_1 in Hnd|].
    by apply (response_headers_first lower fields _ before after name value).
  - intros name Hname.
    destruct (dict (headers response) !! name) eqn:Hlook; [|done].
    destruct Hname.
    apply (response_headers_from_fields lower fields _ name Hitems).
    apply dict_is_Some. by rewrite Hlook.
Qed.

Lemma package_headers_joined_witness :
  ∃ r tr (hd : gmap string string),
    run (process_url world_404 (PDict request_bare)) = (Ok r, tr) ∧
    path ["payload_preview"; "result_package"; "data"; "headers"] (body r) =
      Some (PDict (PStr <$> hd)) ∧
    hd !! "X-Trace" = Some "a, b".
Proof.
  destruct (package_headers_joined Client.ascii_lower world_404 request_bare
              (PStr "http://example.test/ok")
              (mkResponse 404 [("X-Trace", "a, b"); ("Server", "stub")]
                          "not found" "http://example.test/missing")
              fields_404 eq_refl eq_refl eq_refl eq_refl)
    as (r & tr & hd & Hrun & Hpath & _ & Hjoined & _).
  exists r, tr, hd. split; [exact Hrun|]. split; [exact Hpath|].
  apply (Hjoined [] "X-Trace" "a" [("Server", "stub"); ("X-Trace", "b")]).
  - reflexivity.
  - constructor.
Defined.

(** C9 as stated fails: for an upstream answer that carries X-Trace
    twice, with the values a and then b, the client hands the handler
    one item, and the packaged value of X-Trace is "a, b", not the
    last value "b". *)
Lemma package_headers_last_wins_counterexample :
  Client.response_headers Client.ascii_lower fields_404
    = Some [("X-Trace", "a, b"); ("Server", "stub")]
  ∧ http_get world_404 (PStr "http://example.test/ok") 30
    = Ok (mkResponse 404 [("X-Trace", "a, b"); ("Server", "stub")]
                     "not found" "http://example.test/missing")
  ∧ ¬ ∃ r tr,
        run (process_url world_404 (PDict request_bare)) = (Ok r, tr)
        ∧ path ["payload_preview"; "result_package"; "data"; "headers"; "X-Trace"] (body r)
          = Some (PStr "b").
Proof.
  split; [reflexivity|]. split; [reflexivity|].
  intros (r & tr & Hrun & Hpath).
  injection Hrun as <- _. vm_compute in Hpath. discriminate Hpath.
Qed.

(** X1: a request body that is JSON but not an object (null, a
    number, a string, an array) has no [get]: the handler raises
    AttributeError on its first line, before the url is validated and
    before any fetch; no response is built. *)
Theorem process_url_non_object_body_raises (w : World) (v : pyval) :
  (∀ d, v ≠ PDict d) →
  run (process_url w v) =
    (Raise (AttributeError ("'" +:+ type_name v +:+ "' object has no attribute 'get'")), []).
Proof. intros Hv. unfold run. by apply process_url_not_an_object. Qed.

Lemma process_url_non_object_body_raises_witness :
  run (process_url world_ok (PList [PStr "http://example.test/ok"])) =
    (Raise (AttributeError "'list' object has no attribute 'get'"), []).
Proof.
  apply (process_url_non_object_body_raises world_ok (PList [PStr "http://example.test/ok"])).
  intros d. discriminate.
Defined.

(** X2: an exception of the HTTP client that is not a
    RequestException is not caught: it leaves the handler, after the
    one fetch, and no response (neither 200 nor 500) is built. *)
Theorem process_url_other_exception_escapes (w : World) (d : gmap string pyval)
    (url : pyval) (e : exn) :
  d !! "url" = Some url →
  truthy url = true →
  http_get w url 30 = Raise e →
  is_RequestException e = false →
  run (process_url w (PDict d)) = (Raise e, [HttpGet url 30]).
Proof.
  intros Hurl Ht Hget He.
  apply url_of_Some in Hurl. rewrite <- Hurl in Ht, Hget |- *.
  unfold run. by rewrite (process_url_uncaught w d [] e Ht Hget He).
Qed.

Lemma process_url_other_exception_escapes_witness :
  run (process_url world_broken (PDict request_cats)) =
    (Raise (OtherError "unexpected failure"), [HttpGet (PStr "http://example.test/ok") 30]).
Proof.
  apply (process_url_other_exception_escapes world_broken request_cats
           (PStr "http://example.test/ok") (OtherError "unexpected failure"));
    reflexivity.
Defined.

(** X3: a request causes at most one outbound GET: none when the url
    is falsy, otherwise exactly one, of the request's own url value
    and with a timeout of 30; the fetch is never repeated, whether it
    returns, fails or raises. *)
Theorem process_url_single_fetch (w : World) (d : gmap string pyval) :
  fetches (run (process_url w (PDict d))).2 =
    if truthy (url_of d) then [(url_of d, 30)] else [].
Proof.
  unfold run. rewrite process_url_dict.
  destruct (truthy (url_of d)); [|done].
  destruct (http_get w (url_of d) 30) as [response|e]; [done|].
  by destruct (is_RequestException e).
Qed.

(** X4: the handler prints exactly when it answers 200, and then
    exactly once: the printed value is the payload it returns under
    payload_preview.  A 400 or 500 answer, or an exception, prints
    nothing. *)
Theorem process_url_prints_returned_payload (w : World) (d : gmap string pyval)
    (res : result flask_response) (tr : list event) :
  run (process_url w (PDict d)) = (res, tr) →
  (∀ r, res = Ok r → status r = 200 →
     ∃ payload, field "payload_preview" (body r) = Some payload
                ∧ printed tr = [("Simulating LLM callback payload: ", payload)])
  ∧ ((∀ r, res = Ok r → status r ≠ 200) → printed tr = []).
Proof.
  unfold run. rewrite process_url_dict.
  destruct (truthy (url_of d)).
  - destruct (http_get w (url_of d) 30) as [response|e].
    + intros [= <- <-]. split.
      * intros r [= <-] _. eexists. split; reflexivity.
      * intros Hno. by destruct (Hno _ eq_refl).
    + destruct (is_RequestException e); intros [= <- <-]; split; try done.
      intros r [= <-]. done.
  - intros [= <- <-]. split; [|done]. intros r [= <-]. done.
Qed.

Lemma process_url_prints_returned_payload_witness :
  ∃ r tr payload,
    run (process_url world_ok (PDict request_cats)) = (Ok r, tr) ∧
    field "payload_preview" (body r) = Some payload ∧
    printed tr = [("Simulating LLM callback payload: ", payload)].
Proof.
  destruct (process_url_prints_returned_payload world_ok request_cats _ _ eq_refl)
    as [Hprint _].
  destruct (Hprint _ eq_refl eq_refl) as (payload & Hfield & Hprinted).
  eexists _, _, payload. split; [reflexivity|]. split; [exact Hfield | exact Hprinted].
Defined.

(** X5: the handler reads the url and the originalPrompt of the body
    and nothing else: two bodies that agree on these two fields get
    the same answer and cause the same events, whatever other fields
    they carry (unknown fields are ignored, not rejected). *)
Theorem process_url_reads_two_fields (w : World) (d d' : gmap string pyval) :
  d !! "url" = d' !! "url" →
  d !! "originalPrompt" = d' !! "originalPrompt" →
  run (process_url w (PDict d)) = run (process_url w (PDict d')).
Proof.
  intros Hurl Hprompt. unfold run. rewrite !process_url_dict.
  unfold url_of, prompt_of. by rewrite Hurl, Hprompt.
Qed.

Lemma process_url_reads_two_fields_witness :
  run (process_url world_ok (PDict request_cats_verbose)) =
    run (process_url world_ok (PDict request_cats)).
Proof.
  apply (process_url_reads_two_fields world_ok request_cats_verbose request_cats);
    reflexivity.
Defined.

(** X6: the handler answers 400 exactly when the url is absent or is
    one of the falsy values of JSON data: null, false, the integer 0,
    a float zero of either sign, the empty string, the empty array or
    the empty object.  Every other url value, of any type, goes on to
    the fetch. *)
Theorem process_url_400_iff (w : World) (d : gmap string pyval) :
  (∃ r tr, run (process_url w (PDict d)) = (Ok r, tr) ∧ status r = 400)
  ↔ (d !! "url" = None
     ∨ ∃ v, d !! "url" = Some v
            ∧ (v = PNone ∨ v = PBool false ∨ v = PInt 0
               ∨ (∃ sign, v = PFloat (S754_zero sign))
               ∨ v = PStr "" ∨ v = PList [] ∨ v = PDict ∅)).
Proof.
  unfold run. rewrite process_url_dict. split.
  - intros (r & tr & Hrun & Hst).
    destruct (truthy (url_of d)) eqn:Ht.
    + destruct (http_get w (url_of d) 30) as [response|e].
      * injection Hrun as <- _. done.
      * destruct (is_RequestException e); [|done]. injection Hrun as <- _. done.
    + unfold url_of in Ht. destruct (d !! "url") as [v|]; [|by left].
      right. exists v. split; [done|]. by apply truthy_false_iff.
  - intros Hurl.
    assert (Ht : truthy (url_of d) = false).
    { destruct Hurl as [Hnone|(v & Hv & Hfalsy)].
      - by rewrite (url_of_None d Hnone).
      - rewrite (url_of_Some d v Hv). by apply truthy_false_iff. }
    rewrite Ht. by eexists _, _.
Qed.

(** X7: whatever the HTTP client does, a response that the handler
    returns has status 200, 400 or 500, and a response that is not a
    200 has a body with the single field error, a string. *)
Theorem process_url_statuses (w : World) (d : gmap string pyval)
    (r : flask_response) (tr : list event) :
  run (process_url w (PDict d)) = (Ok r, tr) →
  (status r = 200 ∨ status r = 400 ∨ status r = 500)
  ∧ (status r ≠ 200 → ∃ msg, body r = PDict {["error" := PStr msg]}).
Proof.
  unfold run. rewrite process_url_dict.
  destruct (truthy (url_of d)).
  - destruct (http_get w (url_of d) 30) as [response|e].
    + intros [= <- _]. split; [by left|done].
    + destruct (is_RequestException e); [|done].
      intros [= <- _]. split; [by right; right|]. intros _. by eexists.
  - intros [= <- _]. split; [by right; left|]. intros _. by eexists.
Qed.

Lemma process_url_statuses_witness :
  ∃ r tr,
    run (process_url world_down (PDict request_cats)) = (Ok r, tr) ∧
    (status r = 200 ∨ status r = 400 ∨ status r = 500) ∧
    ∃ msg, body r = PDict {["error" := PStr msg]}.
Proof.
  eexists _, _. split; [reflexivity|].
  destruct (process_url_statuses world_down request_cats _ _ eq_refl) as [Hst Hbody].
  split; [exact Hst|]. apply Hbody. simpl. lia.
Defined.

(** X8: the envelope of every 200 answer is complete: the payload
    under payload_preview has exactly the fields automated_return,
    original_prompt, timestamp, status_metadata and result_package,
    with automated_return true and timestamp the reading of the
    clock; result_package has exactly the fields dataType and data;
    and data has exactly the fields status_code, headers, content and
    url. *)
Theorem process_url_envelope (w : World) (d : gmap string pyval)
    (r : flask_response) (tr : list event) :
  run (process_url w (PDict d)) = (Ok r, tr) →
  status r = 200 →
  ∃ payload package data : gmap string pyval,
    field "payload_preview" (body r) = Some (PDict payload) ∧
    (∀ k, is_Some (payload !! k) ↔
          k ∈ ["automated_return"; "original_prompt"; "timestamp";
               "status_metadata"; "result_package"]) ∧
    payload !! "automated_return" = Some (PBool true) ∧
    payload !! "timestamp" = Some (PStr (now_isoformat w)) ∧
    payload !! "result_package" = Some (PDict package) ∧
    (∀ k, is_Some (package !! k) ↔ k ∈ ["dataType"; "data"]) ∧
    package !! "data" = Some (PDict data) ∧
    (∀ k, is_Some (data !! k) ↔ k ∈ ["status_code"; "headers"; "content"; "url"]).
Proof.
  intros Hrun Hst.
  destruct (process_url_200_inv w d r tr Hrun Hst)
    as (url & response & _ & _ & _ & -> & _).
  eexists _, _, _. split; [reflexivity|].
  split; [intros k; apply dict_is_Some|]. split; [reflexivity|]. split; [reflexivity|].
  split; [reflexivity|]. split; [intros k; apply dict_is_Some|]. split; [reflexivity|].
  intros k. apply dict_is_Some.
Qed.

Lemma process_url_envelope_witness :
  ∃ r tr (payload : gmap string pyval),
    run (process_url world_ok (PDict request_cats)) = (Ok r, tr) ∧
    field "payload_preview" (body r) = Some (PDict payload) ∧
    payload !! "timestamp" = Some (PStr "2026-01-01T00:00:00").
Proof.
  destruct (process_url_envelope world_ok request_cats _ _ eq_refl eq_refl)
    as (payload & package & data & Hfield & _ & _ & Hstamp & _).
  eexists _, _, payload. split; [reflexivity|]. split; [exact Hfield | exact Hstamp].
Defined.

(** X9: the packaged headers keep every header name of the response
    and add none: a name has an entry in data.headers exactly when it
    is the name of one of the response's header items, and every
    entry is a string. *)
Theorem package_header_names (w : World) (d : gmap string pyval)
    (url : pyval) (response : Response) :
  d !! "url" = Some url →
  truthy url = true →
  http_get w url 30 = Ok response →
  ∃ r tr (hd : gmap string pyval),
    run (process_url w (PDict d)) = (Ok r, tr) ∧
    path ["payload_preview"; "result_package"; "data"; "headers"] (body r) = Some (PDict hd) ∧
    (∀ name, is_Some (hd !! name) ↔ name ∈ (headers response).*1) ∧
    (∀ name v, hd !! name = Some v → ∃ s, v = PStr s).
Proof.
  intros Hurl Ht Hget.
  apply url_of_Some in Hurl. rewrite <- Hurl in Ht, Hget.
  eexists _, _, (PStr <$> dict (headers response)). unfold run.
  rewrite (process_url_fetched w d [] response Ht Hget).
  split; [reflexivity|]. split; [reflexivity|]. split.
  - intros name. rewrite lookup_fmap, fmap_is_Some. apply dict_is_Some.
  - intros name v. rewrite lookup_fmap. intros Hv.
    apply fmap_Some in Hv as (s & _ & ->). by exists s.
Qed.

Lemma package_header_names_witness :
  ∃ r tr (hd : gmap string pyval),
    run (process_url world_404 (PDict request_bare)) = (Ok r, tr) ∧
    path ["payload_preview"; "result_package"; "data"; "headers"] (body r) = Some (PDict hd) ∧
    is_Some (hd !! "Server") ∧ ¬ is_Some (hd !! "server").
Proof.
  destruct (package_header_names world_404 request_bare
              (PStr "http://example.test/ok")
              (mkResponse 404 [("X-Trace", "a, b"); ("Server", "stub")]
                          "not found" "http://example.test/missing")
              eq_refl eq_refl eq_refl)
    as (r & tr & hd & Hrun & Hpath & Hnames & _).
  exists r, tr, hd. split; [exact Hrun|]. split; [exact Hpath|]. split.
  - apply Hnames. simpl. apply list_elem_of_In. simpl. tauto.
  - intros Hsome. apply Hnames in Hsome. simpl in Hsome.
    apply list_elem_of_In in Hsome. simpl in Hsome.
    destruct Hsome as [?|[?|[]]]; discriminate.
Defined.

(** * Properties of the log analysis job *)

Lemma eq_str_true (v : pyval) (literal : string) :
  AnalyzeLogs.eq_str v literal = true ↔ v = PStr literal.
Proof.
  destruct v; cbn; try (split; [discriminate|congruence]).
  rewrite String.eqb_eq. split; congruence.
Qed.

Lemma eq_str_classification (analysis : gmap string pyval) (literal : string) :
  AnalyzeLogs.eq_str (AnalyzeLogs.dict_get analysis "classification" PNone) literal = true
  ↔ analysis !! "classification" = Some (PStr literal).
Proof.
  rewrite eq_str_true. unfold AnalyzeLogs.dict_get.
  destruct (analysis !! "classification"); split; congruence.
Qed.

(** X10: a step whose classification is neither "correction" nor
    "bug" (another string, a value that is not a string, or no
    classification at all) never raises: it prints one line with the
    classification, None when there is none, and does not print the
    payload. *)
Theorem step_other_classification (analysis : gmap string pyval) :
  analysis !! "classification" ≠ Some (PStr "correction") →
  analysis !! "classification" ≠ Some (PStr "bug") →
  AnalyzeLogs.step analysis =
    ([("Analyzed interaction: ",
       match analysis !! "classification" with Some c => c | None => PNone end)],
     inr tt).
Proof.
  intros Hc Hb. unfold AnalyzeLogs.step.
  destruct (AnalyzeLogs.eq_str _ "correction") eqn:Ec.
  { by apply eq_str_classification in Ec. }
  destruct (AnalyzeLogs.eq_str _ "bug") eqn:Eb.
  { by apply eq_str_classification in Eb. }
  reflexivity.
Qed.

Lemma step_other_classification_witness :
  AnalyzeLogs.step AnalyzeLogs.analysis_praise =
    ([("Analyzed interaction: ", PStr "praise")], inr tt).
Proof.
  apply (step_other_classification AnalyzeLogs.analysis_praise); discriminate.
Defined.

(** X11: a "correction" needs its payload: with a payload the step
    prints it as the new rule, whatever its type; without one it
    raises KeyError for "payload" and prints nothing. *)
Theorem step_correction (analysis : gmap string pyval) :
  analysis !! "classification" = Some (PStr "correction") →
  AnalyzeLogs.step analysis =
    match analysis !! "payload" with
    | Some rule => ([("Found a correction. New rule: ", rule)], inr tt)
    | None => ([], inl (AnalyzeLogs.KeyError "payload"))
    end.
Proof.
  intros Hc. unfold AnalyzeLogs.step.
  apply eq_str_classification in Hc. rewrite Hc. cbn.
  by destruct (analysis !! "payload").
Qed.

Lemma step_correction_witness :
  AnalyzeLogs.step AnalyzeLogs.analysis_correction =
    ([("Found a correction. New rule: ", PStr "Use tool X")], inr tt).
Proof.
  apply (step_correction AnalyzeLogs.analysis_correction). reflexivity.
Defined.

(** X12: a "bug" is reported only when its payload is an object
    with both a title and a body, and then only the title is printed.
    A payload without title raises KeyError for "title"; one with a
    title but no body raises KeyError for "body", although the body
    is never printed; a payload that is not an object raises
    TypeError; no payload raises KeyError for "payload".  Every
    failure prints nothing. *)
Theorem step_bug (analysis : gmap string pyval) :
  analysis !! "classification" = Some (PStr "bug") →
  AnalyzeLogs.step analysis =
    match analysis !! "payload" with
    | None => ([], inl (AnalyzeLogs.KeyError "payload"))
    | Some (PDict payload) =>
        match payload !! "title", payload !! "body" with
        | None, _ => ([], inl (AnalyzeLogs.KeyError "title"))
        | Some _, None => ([], inl (AnalyzeLogs.KeyError "body"))
        | Some title, Some _ => ([("Found a bug. Creating issue: ", title)], inr tt)
        end
    | Some v => ([], inl (AnalyzeLogs.TypeError (type_name v)))
    end.
Proof.
  intros Hb. unfold AnalyzeLogs.step.
  destruct (AnalyzeLogs.eq_str _ "correction") eqn:Ec.
  { apply eq_str_classification in Ec. congruence. }
  apply eq_str_classification in Hb. rewrite Hb. cbn.
  destruct (analysis !! "payload") as [v|]; [|done].
  destruct v as [|b|z|f|s|l|payload]; try done. cbn.
  destruct (payload !! "title") as [title|]; [|done]. cbn.
  by destruct (payload !! "body").
Qed.

Lemma step_bug_witness :
  AnalyzeLogs.step AnalyzeLogs.analysis_bug_without_body =
    ([], inl (AnalyzeLogs.KeyError "body")).
Proof.
  apply (step_bug AnalyzeLogs.analysis_bug_without_body). reflexivity.
Defined.

(** X13: no step prints more than one line, and a step that raises
    has printed nothing: a run of a step is either one line and a
    normal return, or no line and an exception. *)
Theorem step_one_line_or_error (analysis : gmap string pyval) :
  (∃ line, AnalyzeLogs.step analysis = ([line], inr tt))
  ∨ (∃ e, AnalyzeLogs.step analysis = ([], inl e)).
Proof.
  unfold AnalyzeLogs.step.
  destruct (AnalyzeLogs.eq_str _ "correction").
  { cbn. destruct (analysis !! "payload"); [left|right]; by eexists. }
  destruct (AnalyzeLogs.eq_str _ "bug"); [|left; by eexists].
  cbn. destruct (analysis !! "payload") as [v|]; [|right; by eexists].
  destruct v as [|b|z|f|s|l|payload]; try (right; by eexists). cbn.
  destruct (payload !! "title"); [|right; by eexists]. cbn.
  destruct (payload !! "body"); [left|right]; by eexists.
Qed.

(** X14: with the placeholder analysis, the loop prints one line
    "Analyzed interaction: None" for each log it is given, reads
    nothing of the logs and never raises; the function as written,
    whose log list is the empty placeholder, prints nothing and
    returns. *)
Theorem analyze_logs_placeholder (recent_logs : list pyval) :
  AnalyzeLogs.analyze_logs_of recent_logs =
    (replicate (length recent_logs) ("Analyzed interaction: ", PNone), inr tt)
  ∧ AnalyzeLogs.analyze_interaction_logs = ([], inr tt).
Proof.
  split; [|reflexivity].
  unfold AnalyzeLogs.analyze_logs_of.
  induction recent_logs as [|log logs IH]; [reflexivity|].
  cbn [for_each length replicate].
  unfold mbind, Script_bind. rewrite IH. reflexivity.
Qed.

(** * Properties of the icon generator *)

(** ** Runs of scripts *)

Section Runs.
Context {Ev Err : Type}.

Lemma bind_ok {A B : Type} (m : Script Ev Err A) (f : A → Script Ev Err B) out a out' r :
  m = (out, inr a) → f a = (out', r) → m ≫= f = (out ++ out', r).
Proof. intros -> Hf. unfold mbind, Script_bind. by rewrite Hf. Qed.

Lemma bind_raised {A B : Type} (m : Script Ev Err A) (f : A → Script Ev Err B) out e :
  m = (out, inl e) → m ≫= f = (out, inl e).
Proof. by intros ->. Qed.

Lemma bind_assoc {A B C : Type} (m : Script Ev Err A)
    (f : A → Script Ev Err B) (g : B → Script Ev Err C) :
  (m ≫= f) ≫= g = m ≫= (λ a, f a ≫= g).
Proof.
  destruct m as [out [e|a]]; [done|].
  unfold mbind, Script_bind.
  destruct (f a) as [out' [e|b]]; [done|].
  destruct (g b) as [out'' r]. by rewrite app_assoc.
Qed.

Lemma all_out_bind {A B : Type} (P : Ev → Prop) (m : Script Ev Err A)
    (f : A → Script Ev Err B) :
  all_out P m → (∀ a, all_out P (f a)) → all_out P (m ≫= f).
Proof.
  destruct m as [out [e|a]]; [done|]. intros Hm Hf.
  specialize (Hf a). unfold all_out, mbind, Script_bind in *.
  destruct (f a) as [out' r]. cbn in *. by apply Forall_app.
Qed.

Lemma all_out_for_each {A : Type} (P : Ev → Prop) (l : list A)
    (f : A → Script Ev Err unit) :
  (∀ x, all_out P (f x)) → all_out P (for_each l f).
Proof.
  intros Hf. induction l as [|x l IH]; [by constructor|].
  cbn [for_each]. by apply all_out_bind.
Qed.
End Runs.

Section Icons.
Import GenerateIcons.
Context (h : Host).

(** ** Failures end the run where they happen *)

Lemma sound_bind {A B : Type} (m : Run A) (f : A → Run B) :
  sound h m → (∀ a, sound h (f a)) → sound h (m ≫= f).
Proof.
  destruct m as [out [e|a]]; [done|]. intros Hm Hf. specialize (Hf a).
  unfold mbind, Script_bind. destruct (f a) as [out' [e|b]]; cbn in *.
  - destruct Hf as (before & c & -> & Hbefore & Hc).
    exists (out ++ before), c. rewrite app_assoc. split; [done|].
    split; [by apply Forall_app|done].
  - by apply Forall_app.
Qed.

Lemma sound_for_each {A : Type} (l : list A) (f : A → Run unit) :
  (∀ x, sound h (f x)) → sound h (for_each l f).
Proof.
  intros Hf. induction l as [|x l IH]; [by constructor|].
  cbn [for_each]. by apply sound_bind.
Qed.

Lemma sound_print line : sound h (print line).
Proof. by repeat constructor. Qed.

Lemma sound_makedirs path : sound h (makedirs h path).
Proof.
  unfold makedirs. destruct (makedirs_error h path) as [e|] eqn:He; cbn.
  - by exists [], (Makedirs path).
  - by repeat constructor.
Qed.

Lemma sound_save img path : sound h (save h img path).
Proof.
  unfold save. destruct (save_error h path) as [e|] eqn:He; cbn.
  - by exists [], (SaveImage path img).
  - by repeat constructor.
Qed.

Lemma sound_create_icon size filename output_dir :
  sound h (create_icon h size filename output_dir).
Proof.
  unfold create_icon.
  apply sound_bind; [apply sound_makedirs|intros _].
  apply sound_bind; [apply sound_save|intros _].
  apply sound_bind; [apply sound_print|intros _]. by constructor.
Qed.

Lemma sound_main : sound h (main h).
Proof.
  unfold main.
  apply sound_bind; [apply sound_print|intros _].
  apply sound_bind; [apply sound_print|intros _].
  apply sound_bind.
  { apply sound_for_each. intros icon_dir.
    apply sound_bind; [apply sound_print|intros _].
    apply sound_bind; [|intros _; apply sound_print].
    apply sound_for_each. intros [size filename].
    apply sound_bind; [apply sound_create_icon|intros _]. by constructor. }
  intros _.
  apply sound_bind; [apply sound_print|intros _].
  apply sound_bind; [apply sound_print|intros _].
  apply sound_bind; [apply sound_print|intros _].
  apply sound_for_each. intros [size filename]. apply sound_print.
Qed.

Lemma main_split : main h = (main_files h;; main_summary).
Proof. unfold main, main_files, main_summary. by rewrite !bind_assoc. Qed.

Lemma main_summary_run :
  main_summary =
    ([Echo "✨ Done! All icons generated successfully."; Echo ""; Echo "Icons generated:";
      Echo "  • icon16.png (16x16)"; Echo "  • icon32.png (32x32)";
      Echo "  • icon48.png (48x48)"; Echo "  • icon128.png (128x128)"], inr tt).
Proof. reflexivity. Qed.

Lemma main_files_quiet :
  all_out (λ c, c ≠ Echo "✨ Done! All icons generated successfully.") (main_files h).
Proof.
  unfold main_files.
  apply all_out_bind; [by repeat constructor|intros _].
  apply all_out_bind; [by repeat constructor|intros _].
  apply all_out_for_each. intros icon_dir.
  apply all_out_bind; [by repeat constructor|intros _].
  apply all_out_bind; [|intros _; by repeat constructor].
  apply all_out_for_each. intros [size filename].
  apply all_out_bind; [|intros _; by constructor].
  unfold create_icon, makedirs, save, all_out. cbn.
  destruct (makedirs_error h _); cbn; [by repeat constructor|].
  destruct (save_error h _); cbn; [by repeat constructor|].
  by repeat constructor.
Qed.

(** ** When nothing fails *)

Lemma create_icon_ok size filename output_dir :
  (∀ path, makedirs_error h path = None) →
  (∀ path, save_error h path = None) →
  create_icon h size filename output_dir =
    ([Makedirs output_dir;
      SaveImage (os_path_join output_dir filename) (icon_image size);
      Echo ("✓ Generated " +:+ os_path_join output_dir filename)],
     inr (os_path_join output_dir filename)).
Proof.
  intros Hmk Hsv. unfold create_icon, makedirs, save.
  rewrite Hmk. cbn. by rewrite Hsv.
Qed.

Lemma icons_of_dir_ok (output_dir : string) (l : list (Z * string)) :
  (∀ path, makedirs_error h path = None) →
  (∀ path, save_error h path = None) →
  ∃ out,
    for_each l (λ '(size, filename), create_icon h size filename output_dir;; mret tt)
      = (out, inr tt)
    ∧ saved out = (λ '(size, filename),
                     (os_path_join output_dir filename, icon_image size)) <$> l.
Proof.
  intros Hmk Hsv. induction l as [|[size filename] l (out & Hrun & Hsaved)].
  - by exists [].
  - eexists. cbn [for_each]. split.
    + eapply bind_ok; [|exact Hrun].
      eapply bind_ok; [by apply create_icon_ok|reflexivity].
    + unfold saved in *. rewrite omap_app, Hsaved. reflexivity.
Qed.

Lemma main_files_ok :
  (∀ path, makedirs_error h path = None) →
  (∀ path, save_error h path = None) →
  ∃ out,
    main_files h = (out, inr tt)
    ∧ saved out =
        icon_dir ← icon_dirs;
        (λ '(size, filename),
           (os_path_join (os_path_join (repo_root h) icon_dir) filename,
            icon_image size)) <$> sizes.
Proof.
  intros Hmk Hsv. unfold main_files.
  assert (Hloop : ∀ dirs : list string, ∃ out,
    for_each dirs (λ icon_dir,
      let output_dir := os_path_join (repo_root h) icon_dir in
      print ("📁 " +:+ icon_dir +:+ "/");;
      for_each sizes (λ '(size, filename),
        create_icon h size filename output_dir;; mret tt);;
      print "") = (out, inr tt)
    ∧ saved out =
        icon_dir ← dirs;
        (λ '(size, filename),
           (os_path_join (os_path_join (repo_root h) icon_dir) filename,
            icon_image size)) <$> sizes).
  { induction dirs as [|icon_dir dirs (out & Hrun & Hsaved)].
    - by exists [].
    - destruct (icons_of_dir_ok (os_path_join (repo_root h) icon_dir) sizes Hmk Hsv)
        as (out1 & Hrun1 & Hsaved1).
      eexists. cbn [for_each]. split.
      + eapply bind_ok; [|exact Hrun].
        eapply bind_ok; [reflexivity|].
        eapply bind_ok; [exact Hrun1|reflexivity].
      + rewrite bind_cons. unfold saved in *.
        rewrite !omap_app, Hsaved, Hsaved1. reflexivity. }
  destruct (Hloop icon_dirs) as (out & Hrun & Hsaved).
  eexists. split.
  - eapply bind_ok; [reflexivity|]. eapply bind_ok; [reflexivity|]. exact Hrun.
  - exact Hsaved.
Qed.

(** ** Output paths *)

Lemma string_app_assoc (a b c : string) : (a +:+ b) +:+ c = a +:+ (b +:+ c).
Proof. induction a as [|x a IH]; [done|]. exact (f_equal (String x) IH). Qed.

Lemma os_path_join_relative (a b : string) :
  String.prefix "/" b = false → os_path_join a b = path_base a +:+ b.
Proof.
  intros Hb. unfold os_path_join, path_base. rewrite Hb.
  destruct (String.eqb a "" || ends_with_sep a)%bool; [done|].
  by rewrite string_app_assoc.
Qed.

Lemma app_not_empty (a b : string) : b ≠ "" → a +:+ b ≠ "".
Proof. destruct a; [done|]. intros _. discriminate. Qed.

Lemma ends_with_sep_app (a b : string) :
  b ≠ "" → ends_with_sep (a +:+ b) = ends_with_sep b.
Proof.
  intros Hb. induction a as [|c a IH]; [done|].
  change (ends_with_sep (String c a +:+ b))
    with (String.eqb (String c (a +:+ b)) "/" || ends_with_sep (a +:+ b))%bool.
  rewrite IH.
  replace (String.eqb (String c (a +:+ b)) "/") with false; [done|].
  symmetry. apply String.eqb_neq. intros [= _ Hab]. by apply (app_not_empty a b).
Qed.

Lemma icon_path (root dir filename : string) :
  String.prefix "/" dir = false → dir ≠ "" → ends_with_sep dir = false →
  String.prefix "/" filename = false →
  os_path_join (os_path_join root dir) filename =
    path_base root +:+ (dir +:+ "/" +:+ filename).
Proof.
  intros Hdir Hne Hsep Hfile.
  rewrite (os_path_join_relative root dir Hdir).
  rewrite (os_path_join_relative _ filename Hfile).
  unfold path_base at 1.
  rewrite (ends_with_sep_app _ dir Hne), Hsep.
  replace (String.eqb (path_base root +:+ dir) "") with false.
  2: { symmetry. apply String.eqb_neq. by apply app_not_empty. }
  cbn [orb]. by rewrite !string_app_assoc.
Qed.
End Icons.

(** X15: for every side length the circle of an icon is well placed:
    its bounding box [x0, x0, x1, x1] lies inside the canvas with
    x0 <= x1, it leaves the same margin on both sides, and its
    diameter is at least half the side and exceeds half the side by
    at most one and a half pixels; for a side divisible by 4 (as all
    four generated sizes are) it is exactly half the side.  The fill
    is opaque white. *)
Theorem icon_ellipse_geometry (size : Z) :
  (0 ≤ size)%Z →
  ∃ x0 x1 : Z,
    GenerateIcons.ellipses (GenerateIcons.icon_image size) =
      [([x0; x0; x1; x1], [255; 255; 255; 255])]
    ∧ (0 ≤ x0 ≤ x1)%Z ∧ (x1 ≤ size)%Z
    ∧ x0 = (size - x1)%Z
    ∧ (size ≤ 2 * (x1 - x0) ≤ size + 3)%Z
    ∧ ((size `mod` 4)%Z = 0 → (2 * (x1 - x0))%Z = size).
Proof.
  intros Hs. exists (size `div` 4)%Z, (size - size `div` 4)%Z.
  split; [reflexivity|].
  pose proof (Z.div_mod size 4 ltac:(lia)) as Hdm.
  pose proof (Z.mod_pos_bound size 4 ltac:(lia)) as Hm.
  generalize dependent (size `mod` 4)%Z. generalize dependent (size `div` 4)%Z.
  intros q r Hdm Hm. lia.
Qed.

Lemma icon_ellipse_geometry_witness :
  ∃ x0 x1 : Z,
    GenerateIcons.ellipses (GenerateIcons.icon_image 48) =
      [([x0; x0; x1; x1], [255; 255; 255; 255])]
    ∧ (2 * (x1 - x0))%Z = 48.
Proof.
  destruct (icon_ellipse_geometry 48) as (x0 & x1 & Hbox & _ & _ & _ & _ & Hhalf); [lia|].
  exists x0, x1. split; [exact Hbox|]. apply Hhalf. reflexivity.
Defined.

(** X16: on a machine with Pillow where no directory creation and no
    save fails, the script exits with status 0 after saving sixteen
    icons: for each of the four icon directories under the
    repository root, in order, the four sizes; each saved image is
    the icon of its size; and the sixteen paths are pairwise
    distinct, whatever the repository root, so no file is written
    twice. *)
Theorem script_saves_sixteen_icons (h : GenerateIcons.Host) :
  GenerateIcons.pil_installed h = true →
  (∀ path, GenerateIcons.makedirs_error h path = None) →
  (∀ path, GenerateIcons.save_error h path = None) →
  ∃ out,
    GenerateIcons.script h = (out, 0)
    ∧ GenerateIcons.saved out =
        (icon_dir ← GenerateIcons.icon_dirs;
         (λ '(size, filename),
            (GenerateIcons.os_path_join
               (GenerateIcons.os_path_join (GenerateIcons.repo_root h) icon_dir) filename,
             GenerateIcons.icon_image size)) <$> GenerateIcons.sizes)
    ∧ length (GenerateIcons.saved out) = 16%nat
    ∧ NoDup (GenerateIcons.saved out).*1.
Proof.
  intros Hpil Hmk Hsv.
  destruct (main_files_ok h Hmk Hsv) as (out & Hrun & Hsaved).
  assert (Hmain : GenerateIcons.main h = (out ++ GenerateIcons.main_summary.1, inr tt)).
  { rewrite main_split. eapply bind_ok; [exact Hrun|]. by rewrite main_summary_run. }
  eexists. unfold GenerateIcons.script. rewrite Hpil, Hmain.
  split; [reflexivity|].
  assert (Hsaved' : GenerateIcons.saved (out ++ GenerateIcons.main_summary.1)
                    = GenerateIcons.saved out).
  { unfold GenerateIcons.saved. rewrite omap_app, main_summary_run. cbn. by rewrite app_nil_r. }
  rewrite Hsaved', Hsaved. split; [reflexivity|]. split; [reflexivity|].
  cbn -[GenerateIcons.os_path_join]. rewrite !icon_path by done.
  apply (NoDup_fmap_2
           (String.append (GenerateIcons.path_base (GenerateIcons.repo_root h)))
           ["browser-extension/icons/icon16.png"; "browser-extension/icons/icon32.png";
            "browser-extension/icons/icon48.png"; "browser-extension/icons/icon128.png";
            "extension/icons/icon16.png"; "extension/icons/icon32.png";
            "extension/icons/icon48.png"; "extension/icons/icon128.png";
            "extension-src/icons/icon16.png"; "extension-src/icons/icon32.png";
            "extension-src/icons/icon48.png"; "extension-src/icons/icon128.png";
            "public/icons/icon16.png"; "public/icons/icon32.png";
            "public/icons/icon48.png"; "public/icons/icon128.png"]).
  compute_done.
Qed.

Lemma script_saves_sixteen_icons_witness :
  ∃ out,
    GenerateIcons.script GenerateIcons.host_ok = (out, 0)
    ∧ length (GenerateIcons.saved out) = 16%nat
    ∧ NoDup (GenerateIcons.saved out).*1.
Proof.
  destruct (script_saves_sixteen_icons GenerateIcons.host_ok eq_refl
              (λ _, eq_refl) (λ _, eq_refl)) as (out & Hrun & _ & Hlen & Hnodup).
  by exists out.
Defined.

(** X17: the script stops at the first file operation that fails.
    With Pillow installed it exits with status 0 exactly when every
    operation it attempted succeeded; otherwise it exits with status
    1, the failing operation is the last one it attempted, every
    operation before it succeeded (icons already saved are left in
    place), the last line printed is the error, and the success line
    is never printed. *)
Theorem script_stops_at_first_failure (h : GenerateIcons.Host)
    (out : list GenerateIcons.call) (status : Z) :
  GenerateIcons.pil_installed h = true →
  GenerateIcons.script h = (out, status) →
  (status = 0 ∧ Forall (λ c, GenerateIcons.failure h c = None) out)
  ∨ (status = 1
     ∧ ∃ before c e,
         out = before ++ [c; GenerateIcons.Echo ("❌ Error: " +:+ e)]
         ∧ Forall (λ c, GenerateIcons.failure h c = None) before
         ∧ GenerateIcons.failure h c = Some e
         ∧ GenerateIcons.Echo "✨ Done! All icons generated successfully." ∉ out).
Proof.
  intros Hpil. unfold GenerateIcons.script. rewrite Hpil.
  pose proof (sound_main h) as Hsound.
  pose proof (main_files_quiet h) as Hquiet.
  destruct (GenerateIcons.main_files h) as [out1 [e1|[]]] eqn:Hfiles.
  - assert (Hmain : GenerateIcons.main h = (out1, inl e1)).
    { rewrite main_split. by apply bind_raised. }
    rewrite Hmain in Hsound |- *. intros [= <- <-].
    right. split; [done|].
    destruct Hsound as (before & c & -> & Hbefore & Hc).
    exists before, c, e1. rewrite <- app_assoc. split; [done|].
    split; [done|]. split; [done|].
    unfold all_out in Hquiet. cbn in Hquiet. rewrite Forall_forall in Hquiet.
    intros Hin. apply elem_of_app in Hin as [Hin|Hin].
    + apply (Hquiet _ (proj2 (elem_of_app _ _ _) (or_introl Hin))). done.
    + apply elem_of_cons in Hin as [Heq|Hin].
      * apply (Hquiet c); [|done]. apply elem_of_app. right. by apply list_elem_of_singleton.
      * apply list_elem_of_singleton in Hin. discriminate.
  - assert (Hmain : GenerateIcons.main h = (out1 ++ GenerateIcons.main_summary.1, inr tt)).
    { rewrite main_split. eapply bind_ok; [exact Hfiles|]. by rewrite main_summary_run. }
    rewrite Hmain in Hsound |- *. intros [= <- <-]. by left.
Qed.

Lemma script_stops_at_first_failure_witness :
  ∃ before c e,
    (GenerateIcons.script GenerateIcons.host_read_only).1 =
      before ++ [c; GenerateIcons.Echo ("❌ Error: " +:+ e)]
    ∧ GenerateIcons.failure GenerateIcons.host_read_only c = Some e
    ∧ (GenerateIcons.script GenerateIcons.host_read_only).2 = 1.
Proof.
  destruct (script_stops_at_first_failure GenerateIcons.host_read_only _ _ eq_refl eq_refl)
    as [[H0 _]|[_ (before & c & e & Hout & _ & Hc & _)]]; [discriminate|].
  exists before, c, e. split; [exact Hout|]. split; [exact Hc|reflexivity].
Defined.
